(** * Wellness Hub: a shallow embedding of js/api.js and js/app.js

    The development follows the two source modules:
    - [JsString]: the string built-ins the code calls (trim, includes, split,
      join, encodeURIComponent);
    - [Js]: JSON-shaped values as the remote providers deliver them, property
      reads and the conversion of template literals;
    - the world (the module variables of app.js, the cached DOM elements,
      localStorage, the request and console traces) and a state-and-exception
      monad [M] over it;
    - js/api.js: [fetchQuote], [fetchVideos];
    - js/app.js: [storage_get], [storage_set], the four renderers,
      [handleToggleFavorite], [handleNavigation], [loadInitialData].

    A JavaScript string is held as a [string] of bytes: its text in UTF-8, and
    a lone surrogate code unit (which UTF-8 cannot hold) as the three bytes
    ED A0..BF 80..BF of the generalized encoding.  [trim] strips the white
    space and line terminators of the language, [includes] compares UTF-16
    code units, and String.prototype.toLowerCase, whose case mapping is the
    platform's table, is a function of the environment.  An [await] is
    sequential composition: an asynchronous function runs to completion
    before the next one starts; [loadInitialData_tips_request] and
    [loadInitialData_tips_settle] split step 1 at its [await fetch], for calls
    that overlap there. *)

From Stdlib Require Import Ascii String ZArith.
From stdpp Require Import base list strings gmap pretty.

Local Open Scope string_scope.
Local Open Scope list_scope.
Set Warnings "-register-all".

(** ** String built-ins *)

Module JsString.

(** The white space and line terminators that [trim] strips, by their UTF-8
    bytes: TAB, LF, VT, FF, CR and SPACE (one byte); U+00A0 (two bytes);
    U+1680, U+2000..U+200A, U+2028, U+2029, U+202F, U+205F, U+3000 and U+FEFF
    (three bytes). *)
Definition is_space1 (c : ascii) : bool :=
  let n := nat_of_ascii c in ((Nat.leb 9 n && Nat.leb n 13) || Nat.eqb n 32)%bool.

Definition is_space2 (c d : ascii) : bool :=
  (Nat.eqb (nat_of_ascii c) 194 && Nat.eqb (nat_of_ascii d) 160)%bool.

Definition is_space3 (c d e : ascii) : bool :=
  bool_decide ((nat_of_ascii c, nat_of_ascii d, nat_of_ascii e)
               ∈ [ (225, 154, 128);
                   (226, 128, 128); (226, 128, 129); (226, 128, 130); (226, 128, 131);
                   (226, 128, 132); (226, 128, 133); (226, 128, 134); (226, 128, 135);
                   (226, 128, 136); (226, 128, 137); (226, 128, 138);
                   (226, 128, 168); (226, 128, 169); (226, 128, 175);
                   (226, 129, 159); (227, 128, 128); (239, 187, 191) ]%nat).

Fixpoint trimStart (s : string) : string :=
  match s with
  | EmptyString => EmptyString
  | String c s1 =>
      if is_space1 c then trimStart s1
      else
        match s1 with
        | EmptyString => s
        | String d s2 =>
            if is_space2 c d then trimStart s2
            else
              match s2 with
              | EmptyString => s
              | String e s3 => if is_space3 c d e then trimStart s3 else s
              end
        end
  end.

(** The same on the bytes in reverse order, last byte first. *)
Fixpoint trimStart_rev (l : list ascii) : list ascii :=
  match l with
  | [] => []
  | e :: l1 =>
      if is_space1 e then trimStart_rev l1
      else
        match l1 with
        | [] => l
        | d :: l2 =>
            if is_space2 d e then trimStart_rev l2
            else
              match l2 with
              | [] => l
              | c :: l3 => if is_space3 c d e then trimStart_rev l3 else l
              end
        end
  end.

Definition trimEnd (s : string) : string :=
  string_of_list_ascii (rev (trimStart_rev (rev (list_ascii_of_string s)))).

(** String.prototype.trim *)
Definition trim (s : string) : string := trimEnd (trimStart s).

Fixpoint startsWith (s sub : string) : bool :=
  match sub, s with
  | EmptyString, _ => true
  | String _ _, EmptyString => false
  | String a sub', String b s' => (bool_decide (a = b) && startsWith s' sub')%bool
  end.

(** The UTF-16 code units of a string, decoded from its bytes: one unit for a
    sequence of one, two or three bytes (a lone surrogate is such a sequence
    of three), a surrogate pair for a sequence of four. *)
Fixpoint code_units (s : string) : list N :=
  match s with
  | EmptyString => []
  | String b1 s1 =>
      let n1 := N_of_ascii b1 in
      if (n1 <? 192)%N then n1 :: code_units s1
      else
        match s1 with
        | EmptyString => [n1]
        | String b2 s2 =>
            let n2 := N_of_ascii b2 in
            if (n1 <? 224)%N then ((n1 - 192) * 64 + (n2 - 128))%N :: code_units s2
            else
              match s2 with
              | EmptyString => [n1; n2]
              | String b3 s3 =>
                  let n3 := N_of_ascii b3 in
                  if (n1 <? 240)%N
                  then ((n1 - 224) * 4096 + (n2 - 128) * 64 + (n3 - 128))%N :: code_units s3
                  else
                    match s3 with
                    | EmptyString => [n1; n2; n3]
                    | String b4 s4 =>
                        let n4 := N_of_ascii b4 in
                        let v := ((n1 - 240) * 262144 + (n2 - 128) * 4096
                                  + (n3 - 128) * 64 + (n4 - 128) - 65536)%N in
                        (55296 + v / 1024)%N :: (56320 + v mod 1024)%N :: code_units s4
                    end
              end
        end
  end.

Fixpoint starts_with_units (l sub : list N) : bool :=
  match sub, l with
  | [], _ => true
  | _ :: _, [] => false
  | a :: sub', b :: l' => (bool_decide (a = b) && starts_with_units l' sub')%bool
  end.

Fixpoint includes_units (l sub : list N) : bool :=
  (starts_with_units l sub ||
   match l with
   | [] => false
   | _ :: l' => includes_units l' sub
   end)%bool.

(** String.prototype.includes: the code units of [sub] occur, in a row,
    somewhere among those of [s]. *)
Definition includes (s sub : string) : bool :=
  includes_units (code_units s) (code_units sub).

(** String.prototype.split for a non-empty separator: leftmost,
    non-overlapping occurrences.  [skip] counts the characters of a matched
    separator still to be dropped, [cur] is the current piece, reversed. *)
Fixpoint split_go (sep : string) (skip : nat) (cur : list ascii) (s : string)
  : list string :=
  match s with
  | EmptyString => [string_of_list_ascii (rev cur)]
  | String c s' =>
      match skip with
      | S k => split_go sep k cur s'
      | O =>
          if startsWith s sep
          then string_of_list_ascii (rev cur)
               :: split_go sep (String.length sep - 1) [] s'
          else split_go sep O (c :: cur) s'
      end
  end.

Definition split (s sep : string) : list string := split_go sep O [] s.

(** Array.prototype.join on an array of strings. *)
Fixpoint join (sep : string) (l : list string) : string :=
  match l with
  | [] => ""
  | [x] => x
  | x :: l' => x +:+ sep +:+ join sep l'
  end.

Definition hex_digit (n : nat) : ascii :=
  ascii_of_nat (if Nat.ltb n 10 then 48 + n else 55 + n).

(** The characters encodeURIComponent leaves alone:
    A-Z a-z 0-9 - _ . ! ~ * ' ( ) *)
Definition unreserved (c : ascii) : bool :=
  let n := nat_of_ascii c in
  ((Nat.leb 65 n && Nat.leb n 90) || (Nat.leb 97 n && Nat.leb n 122)
   || (Nat.leb 48 n && Nat.leb n 57)
   || bool_decide (n ∈ [45; 95; 46; 33; 126; 42; 39; 40; 41]%nat))%bool.

(** A lone surrogate: the byte ED followed by a byte in A0..BF. *)
Definition lone_surrogate_at (s : string) : bool :=
  match s with
  | String c (String d _) =>
      (Nat.eqb (nat_of_ascii c) 237
       && Nat.leb 160 (nat_of_ascii d) && Nat.leb (nat_of_ascii d) 191)%bool
  | _ => false
  end.

(** encodeURIComponent: every byte outside the unreserved set becomes %XX;
    [None] is the URIError it throws on a lone surrogate. *)
Fixpoint encodeURIComponent (s : string) : option string :=
  match s with
  | EmptyString => Some EmptyString
  | String c s' =>
      if lone_surrogate_at s then None
      else
        match encodeURIComponent s' with
        | None => None
        | Some rest =>
            Some (if unreserved c then String c rest
                  else String "%" (String (hex_digit (nat_of_ascii c / 16))
                                     (String (hex_digit (nat_of_ascii c mod 16)) rest)))
        end
  end.

End JsString.

(** ** JSON-shaped values *)

Module Js.

(** What [response.json()] can deliver, plus [undefined].  A number is held
    as the text Number.prototype.toString gives for it, the only use the code
    makes of one; an object is its list of fields, looked up first match. *)
Inductive value :=
| VUndef
| VNull
| VBool (b : bool)
| VNum (text : string)
| VStr (s : string)
| VArr (items : list value)
| VObj (fields : list (string * value)).

Inductive exn :=
| TypeError
| SyntaxError
| NetworkError
| SecurityError
| QuotaExceededError
| URIError
| Error (message : string).

Fixpoint assoc (k : string) (fields : list (string * value)) : value :=
  match fields with
  | [] => VUndef
  | (k', v) :: rest => if bool_decide (k' = k) then v else assoc k rest
  end.

(** Property read [v.k], for the field names the code uses (none of them is
    a built-in property of a string, number, boolean or array). *)
Definition get (v : value) (k : string) : exn + value :=
  match v with
  | VUndef | VNull => inl TypeError
  | VObj fields => inr (assoc k fields)
  | _ => inr VUndef
  end.

Definition and_then {A B} (r : exn + A) (k : A -> exn + B) : exn + B :=
  match r with
  | inl e => inl e
  | inr a => k a
  end.

Fixpoint map_sum {A B} (f : A -> exn + B) (l : list A) : exn + list B :=
  match l with
  | [] => inr []
  | x :: l' => and_then (f x) (fun y => and_then (map_sum f l') (fun ys => inr (y :: ys)))
  end.

(** [arr.map(f)] for a callback that may throw: only an array has the method. *)
Definition array_map {B} (f : value -> exn + B) (arr : value) : exn + list B :=
  match arr with
  | VArr items => map_sum f items
  | _ => inl TypeError
  end.

Definition has_own (k : string) (fields : list (string * value)) : bool :=
  bool_decide (k ∈ fields.*1).

(** The conversion a template literal applies to an interpolated value.  An
    array is joined with commas, [undefined] and [null] elements as the empty
    string.  A parsed object has no callable property of its own: with an own
    [toString] the conversion finds nothing to call and throws, without one
    it reaches Object.prototype.toString. *)
Fixpoint toString (v : value) : exn + string :=
  match v with
  | VUndef => inr "undefined"
  | VNull => inr "null"
  | VBool true => inr "true"
  | VBool false => inr "false"
  | VNum text => inr text
  | VStr s => inr s
  | VArr items =>
      and_then
        ((fix elements (l : list value) : exn + list string :=
            match l with
            | [] => inr []
            | x :: l' =>
                and_then (match x with
                          | VUndef | VNull => inr ""
                          | _ => toString x
                          end)
                  (fun y => and_then (elements l') (fun ys => inr (y :: ys)))
            end) items)
        (fun parts => inr (JsString.join "," parts))
  | VObj fields =>
      if has_own "toString" fields then inl TypeError else inr "[object Object]"
  end.

End Js.
Export Js.

(** ** Data model *)

Module Tip.
Record t := mk
  { id : string; title : string; content : string; category : string; source : string }.
End Tip.

Module Video.
(** Built from provider data without validation, so each field is a [value]. *)
Record t := mk { videoId : value; title : value; channelTitle : value }.
End Video.

Module Fav.
(** An entry of [favorites]: [{ id, type }] plus the display fields the
    toggle copies for its type; [None] is a property that was never set. *)
Record t := mk
  { id : string; type : string;
    q : option string; a : option string;
    title : option string; content : option string }.
End Fav.

Module Button.
(** The [dataset] of a [.favorite-btn] element. *)
Record t := mk
  { id : string; type : string;
    q : option string; a : option string;
    title : option string; content : option string }.
End Button.

Module Quote.
Record t := mk { q : string; a : string; id : string }.
End Quote.

(** ** Markup

    Each renderer assigns a template string to [innerHTML].  The template is
    kept as the data it interpolates: a placeholder paragraph, or one card per
    item in the order of the array that [map] walked.  A video card holds the
    text its provider values were converted to. *)

Record quote_markup := mkQuoteMarkup
  { qm_text : string; qm_author : string; qm_id : string; qm_fav : bool }.

Record tip_card := mkTipCard { card_tip : Tip.t; card_fav : bool }.

Inductive tips_markup :=
| NoTipsFound
| TipCards (cards : list tip_card).

Record video_card := mkVideoCard
  { card_videoId : string; card_title : string; card_channelTitle : string;
    vcard_fav : bool }.

Inductive videos_markup :=
| NoVideosAvailable
| VideoCards (cards : list video_card).

Inductive favorites_markup :=
| NoFavoriteVideos
| FavoriteCards (cards : list Fav.t).

(** An element looked up by id: [None] when the document has no such element,
    [Some None] while it still holds the page's static content, [Some (Some m)]
    once a renderer wrote [m]. *)
Definition mount (A : Type) : Type := option (option A).

Inductive section_name :=
| homeSection | favoritesSection | tipsSection | quoteSection | videoSidebar.

Global Instance section_name_eq_dec : EqDecision section_name.
Proof. solve_decision. Defined.

(** [els], as the DOMContentLoaded handler caches it.  The two controls hold
    their [value]; a section holds whether its class list has [hidden]. *)
Record Els := mkEls
  { quoteContent : mount quote_markup;
    tipsList : mount tips_markup;
    videoList : mount videos_markup;
    favoritesList : mount favorites_markup;
    searchInput : option string;
    categoryFilter : option string;
    sections : section_name -> option bool }.

(** A [.nav-button] element: its [data-page] and whether it carries the
    highlight classes. *)
Record NavButton := mkNavButton { page : option string; active : bool }.

(** ** The environment *)

Record response (B : Type) := mkResponse
  { ok : bool; status : nat; statusText : string;
    text : option string;     (* [None]: reading the body fails *)
    json : option B }.        (* [None]: the body does not parse *)
Arguments mkResponse {B}.
Arguments ok {B}.
Arguments status {B}.
Arguments statusText {B}.
Arguments text {B}.
Arguments json {B}.

Inductive fetch_outcome (B : Type) :=
| NetworkFault
| Responded (r : response B).
Arguments NetworkFault {B}.
Arguments Responded {B}.

(** What the program does not control.  The two [fetch] oracles answer the
    n-th request of the session; data.json decodes to Tip records, the remote
    providers to arbitrary values.  [toLowerCase] is
    String.prototype.toLowerCase. *)
Record Env := mkEnv
  { YOUTUBE_API_KEY : string;
    JSON_parse : string -> option value;
    JSON_stringify : value -> string;
    local_files : nat -> string -> fetch_outcome (list Tip.t);
    network : nat -> string -> fetch_outcome value;
    storage_readable : bool;
    storage_accepts : gmap string string -> string -> string -> bool;
    toLowerCase : string -> string }.

(** ** The world: module variables of app.js, DOM, storage, traces *)

Record world := mkWorld
  { favorites : list Fav.t;
    localTipsData : list Tip.t;
    currentView : string;
    currentSearchTerm : string;
    currentCategory : string;
    els : Els;
    nav_buttons : list NavButton;
    localStorage : gmap string string;
    requests : list string;
    console : list string;
    env : Env }.

Definition set_favorites (x : list Fav.t) (w : world) : world :=
  mkWorld x (localTipsData w) (currentView w) (currentSearchTerm w) (currentCategory w)
    (els w) (nav_buttons w) (localStorage w) (requests w) (console w) (env w).
Definition set_localTipsData (x : list Tip.t) (w : world) : world :=
  mkWorld (favorites w) x (currentView w) (currentSearchTerm w) (currentCategory w)
    (els w) (nav_buttons w) (localStorage w) (requests w) (console w) (env w).
Definition set_currentView (x : string) (w : world) : world :=
  mkWorld (favorites w) (localTipsData w) x (currentSearchTerm w) (currentCategory w)
    (els w) (nav_buttons w) (localStorage w) (requests w) (console w) (env w).
Definition set_els (x : Els) (w : world) : world :=
  mkWorld (favorites w) (localTipsData w) (currentView w) (currentSearchTerm w)
    (currentCategory w) x (nav_buttons w) (localStorage w) (requests w) (console w) (env w).
Definition set_nav_buttons (x : list NavButton) (w : world) : world :=
  mkWorld (favorites w) (localTipsData w) (currentView w) (currentSearchTerm w)
    (currentCategory w) (els w) x (localStorage w) (requests w) (console w) (env w).
Definition set_localStorage (x : gmap string string) (w : world) : world :=
  mkWorld (favorites w) (localTipsData w) (currentView w) (currentSearchTerm w)
    (currentCategory w) (els w) (nav_buttons w) x (requests w) (console w) (env w).
Definition set_requests (x : list string) (w : world) : world :=
  mkWorld (favorites w) (localTipsData w) (currentView w) (currentSearchTerm w)
    (currentCategory w) (els w) (nav_buttons w) (localStorage w) x (console w) (env w).
Definition set_console (x : list string) (w : world) : world :=
  mkWorld (favorites w) (localTipsData w) (currentView w) (currentSearchTerm w)
    (currentCategory w) (els w) (nav_buttons w) (localStorage w) (requests w) x (env w).

Definition set_quoteContent (x : mount quote_markup) (e : Els) : Els :=
  mkEls x (tipsList e) (videoList e) (favoritesList e) (searchInput e) (categoryFilter e)
    (sections e).
Definition set_tipsList (x : mount tips_markup) (e : Els) : Els :=
  mkEls (quoteContent e) x (videoList e) (favoritesList e) (searchInput e)
    (categoryFilter e) (sections e).
Definition set_videoList (x : mount videos_markup) (e : Els) : Els :=
  mkEls (quoteContent e) (tipsList e) x (favoritesList e) (searchInput e)
    (categoryFilter e) (sections e).
Definition set_favoritesList (x : mount favorites_markup) (e : Els) : Els :=
  mkEls (quoteContent e) (tipsList e) (videoList e) x (searchInput e) (categoryFilter e)
    (sections e).
Definition set_categoryFilter (x : option string) (e : Els) : Els :=
  mkEls (quoteContent e) (tipsList e) (videoList e) (favoritesList e) (searchInput e) x
    (sections e).
Definition set_sections (x : section_name -> option bool) (e : Els) : Els :=
  mkEls (quoteContent e) (tipsList e) (videoList e) (favoritesList e) (searchInput e)
    (categoryFilter e) x.

(** ** A state-and-exception monad over the world *)

Inductive outcome (A : Type) :=
| Ret (a : A)          (* normal completion *)
| Throw (e : exn)      (* a thrown exception or rejected promise *)
| OutOfFuel.           (* the model's recursion bound was reached *)
Arguments Ret {A}.
Arguments Throw {A}.
Arguments OutOfFuel {A}.

Definition M (A : Type) : Type := world -> outcome A * world.

Definition ret {A} (a : A) : M A := fun w => (Ret a, w).

Definition throw {A} (e : exn) : M A := fun w => (Throw e, w).

Definition bind {A B} (c : M A) (k : A -> M B) : M B :=
  fun w =>
    match c w with
    | (Ret a, w') => k a w'
    | (Throw e, w') => (Throw e, w')
    | (OutOfFuel, w') => (OutOfFuel, w')
    end.

Notation "'let*' x ':=' c 'in' k" := (bind c (fun x => k))
  (at level 10, x name, c at level 100, k at level 200).

(** [try { body } catch (e) { handler }] *)
Definition try_catch {A} (body : M A) (handler : exn -> M A) : M A :=
  fun w =>
    match body w with
    | (Throw e, w') => handler e w'
    | r => r
    end.

(** A call to an async function whose promise nobody awaits: a rejection stays
    with the promise. *)
Definition detached (c : M unit) : M unit :=
  fun w =>
    match c w with
    | (Throw _, w') => (Ret tt, w')
    | r => r
    end.

Definition read {A} (f : world -> A) : M A := fun w => (Ret (f w), w).

Definition modify (f : world -> world) : M unit := fun w => (Ret tt, f w).

Definition lift {A} (r : exn + A) : M A :=
  match r with
  | inl e => throw e
  | inr a => ret a
  end.

(** console.log / console.warn / console.error: the leading message is kept. *)
Definition console_log (line : string) : M unit :=
  modify (fun w => set_console (console w ++ [line]) w).

(** [fetch(url)]: the request is recorded, the oracle answers it. *)
Definition fetch {B} (oracle : Env -> nat -> string -> fetch_outcome B) (url : string)
  : M (response B) :=
  fun w =>
    let w' := set_requests (requests w ++ [url]) w in
    match oracle (env w) (length (requests w)) url with
    | NetworkFault => (Throw NetworkError, w')
    | Responded r => (Ret r, w')
    end.

Definition response_json {B} (r : response B) : M B :=
  match json r with
  | Some b => ret b
  | None => throw SyntaxError
  end.

Definition response_text {B} (r : response B) : M string :=
  match text r with
  | Some s => ret s
  | None => throw NetworkError
  end.

Definition localStorage_getItem (key : string) : M (option string) :=
  fun w =>
    if storage_readable (env w) then (Ret (localStorage w !! key), w)
    else (Throw SecurityError, w).

Definition localStorage_setItem (key data : string) : M unit :=
  fun w =>
    if negb (storage_readable (env w)) then (Throw SecurityError, w)
    else if storage_accepts (env w) (localStorage w) key data
         then (Ret tt, set_localStorage (<[key := data]> (localStorage w)) w)
         else (Throw QuotaExceededError, w).

(** ** js/api.js *)

Definition YOUTUBE_SEARCH_URL : string := "https://www.googleapis.com/youtube/v3/search".

Definition QUOTE_API_URL : string := "https://api.quotable.io/random".

Definition fallback_quote : string :=
  "Always code as if the person who ends up maintaining your code will be a violent psychopath who knows where to live. — Martin Golding".

(** [export async function fetchQuote()] *)
Definition fetchQuote : M string :=
  try_catch
    (let* response := fetch network QUOTE_API_URL in
     let* _ :=
       if negb (ok response)
       then let* _ := console_log "Quote fetch failed with status:" in
            throw (Error "Quote API response failed.")
       else ret tt in
     let* data := response_json response in
     let* _ := console_log "Successfully fetched daily quote." in
     let* content := lift (and_then (get data "content") toString) in
     let* author := lift (and_then (get data "author") toString) in
     ret (content +:+ " — " +:+ author))
    (fun error =>
       let* _ := console_log "Error fetching quote (using fallback):" in
       ret fallback_quote).

Definition mock_videos : list Video.t :=
  [ Video.mk (VStr "e-g-j8Jt4_8") (VStr "5 Minute Morning Meditation")
      (VStr "Mock Wellness Channel");
    Video.mk (VStr "5q3IqjGf_mY") (VStr "Quick De-stress Breathing")
      (VStr "Mock Wellness Channel") ].

Definition apiUrl (key query : string) : option string :=
  let maxResults := 5%nat in
  let type := "video" in
  let embeddableParam := "&videoEmbeddable=true&videoLicense=creativeCommon" in
  encoded ← JsString.encodeURIComponent query;
  Some (YOUTUBE_SEARCH_URL +:+ "?key=" +:+ key +:+ "&q=" +:+ encoded
          +:+ "&part=snippet&maxResults=" +:+ pretty maxResults +:+ "&type=" +:+ type
          +:+ "&videoDuration=short" +:+ embeddableParam).

(** The callback of [data.items.map]. *)
Definition simplify_item (item : value) : exn + Video.t :=
  and_then (get item "id") (fun id =>
  and_then (get id "videoId") (fun videoId =>
  and_then (get item "snippet") (fun snippet =>
  and_then (get snippet "title") (fun title =>
  and_then (get snippet "channelTitle") (fun channelTitle =>
  inr (Video.mk videoId title channelTitle)))))).

(** [export async function fetchVideos(query = 'daily motivation')];
    [None] is a call without the argument. *)
Definition fetchVideos (query : option string) : M (list Video.t) :=
  let query := default "daily motivation" query in
  let* key := read (fun w => YOUTUBE_API_KEY (env w)) in
  if (bool_decide (key = "YOUR_YOUTUBE_API_KEY") || bool_decide (key = ""))%bool
  then
    let* _ := console_log "YouTube API Key is not set. Please insert your key into js/api.js to enable videos." in
    ret mock_videos
  else
    let* apiUrl :=
      match apiUrl key query with
      | Some url => ret url
      | None => throw URIError
      end in
    try_catch
      (let* response := fetch network apiUrl in
       let* _ :=
         if negb (ok response)
         then let* errorText := response_text response in
              let* _ := console_log "YouTube API status:" in
              throw (Error ("YouTube API failed. Status: " +:+ pretty (status response)
                            +:+ ". Check your API Key or quota usage."))
         else ret tt in
       let* data := response_json response in
       let* items := lift (get data "items") in
       lift (array_map simplify_item items))
      (fun error =>
         let* _ := console_log "Error fetching YouTube videos:" in
         ret []).

(** ** js/app.js *)

Definition LOCAL_TIPS_URL : string := "./data/data.json".

Definition APP_ID : string := "wellness-hub-2025".

Module keys.
Definition FAVORITES : string := APP_ID +:+ "-favorites".
Definition THEME : string := APP_ID +:+ "-theme".
Definition LAST_CATEGORY : string := APP_ID +:+ "-category".
Definition LAST_FETCH : string := APP_ID +:+ "-fetch-ts".
End keys.

(** A parameter declared [defaultValue = []]: the initializer applies when
    the argument is missing ([None]) or [undefined]. *)
Definition default_parameter (initializer : value) (argument : option value) : value :=
  match argument with
  | None | Some VUndef => initializer
  | Some v => v
  end.

(** [storage.get(key, defaultValue = [])] *)
Definition storage_get (key : string) (defaultValue : option value) : M value :=
  let defaultValue := default_parameter (VArr []) defaultValue in
  try_catch
    (let* data := localStorage_getItem key in
     match data with
     | Some (String c d) =>
         let* parse := read (fun w => JSON_parse (env w)) in
         match parse (String c d) with
         | Some v => ret v
         | None => throw SyntaxError
         end
     | Some EmptyString | None => ret defaultValue
     end)
    (fun e =>
       let* _ := console_log ("Error reading key " +:+ key +:+ ":") in
       ret defaultValue).

(** [storage.set(key, value)] *)
Definition storage_set (key : string) (v : value) : M unit :=
  try_catch
    (let* stringify := read (fun w => JSON_stringify (env w)) in
     localStorage_setItem key (stringify v))
    (fun e => console_log ("Error writing key " +:+ key +:+ ":")).

(** The favorites array as the value handed to [JSON.stringify]. *)
Definition optional_field (k : string) (o : option string) : list (string * value) :=
  match o with
  | Some s => [(k, VStr s)]
  | None => []
  end.

Definition value_of_fav (f : Fav.t) : value :=
  VObj ([("id", VStr (Fav.id f)); ("type", VStr (Fav.type f))]
          ++ optional_field "q" (Fav.q f) ++ optional_field "a" (Fav.a f)
          ++ optional_field "title" (Fav.title f)
          ++ optional_field "content" (Fav.content f)).

Definition value_of_favorites (l : list Fav.t) : value := VArr (List.map value_of_fav l).

Definition getDailyQuoteId : string := "daily-quote-inspiration".

(** [s === v] for a string [s]. *)
Definition strict_eq_string (s : string) (v : value) : bool :=
  match v with
  | VStr s' => bool_decide (s = s')
  | _ => false
  end.

(** [favorites.some(fav => fav.id === id)] *)
Definition isFavorited (id : value) (w : world) : bool :=
  existsb (fun fav => strict_eq_string (Fav.id fav) id) (favorites w).

(** [a || b] on strings: the empty string is falsy. *)
Definition or_else (a b : string) : string :=
  match a with
  | EmptyString => b
  | _ => a
  end.

Definition renderQuote (quote : Quote.t) : M unit :=
  let* e := read els in
  match quoteContent e with
  | None =>
      console_log "renderQuote failed: els.quoteContent (ID: 'quote-content') element not found in the DOM."
  | Some _ =>
      let quoteId := Quote.id quote in
      let* isFav := read (isFavorited (VStr quoteId)) in
      let m := mkQuoteMarkup (or_else (Quote.q quote) "[object Object]")
                 (or_else (Quote.a quote) "Zen Master") quoteId isFav in
      modify (fun w => set_els (set_quoteContent (Some (Some m)) (els w)) w)
  end.

Definition renderTips (tips : list Tip.t) : M unit :=
  let* e := read els in
  let* toLowerCase := read (fun w => toLowerCase (env w)) in
  match tipsList e with
  | None => ret tt
  | Some _ =>
      let filteredTips :=
        List.filter
          (fun tip =>
             let categoryValue :=
               match categoryFilter e with Some v => v | None => "all" end in
             let searchValue :=
               match searchInput e with
               | Some v => toLowerCase (JsString.trim v)
               | None => ""
               end in
             let matchesCategory :=
               (bool_decide (categoryValue = "all")
                || bool_decide (Tip.category tip = categoryValue))%bool in
             let matchesSearch :=
               (bool_decide (searchValue = "")
                || JsString.includes (toLowerCase (Tip.title tip)) searchValue
                || JsString.includes (toLowerCase (Tip.content tip)) searchValue)%bool in
             (matchesCategory && matchesSearch)%bool)
          tips in
      let* w := read (fun w => w) in
      let m :=
        if bool_decide (length filteredTips = 0%nat) then NoTipsFound
        else TipCards
               (List.map (fun tip => mkTipCard tip (isFavorited (VStr (Tip.id tip)) w))
                  filteredTips) in
      modify (fun w => set_els (set_tipsList (Some (Some m)) (els w)) w)
  end.

(** The template of one video card: the id, the title and the channel title
    are converted to text, in this order. *)
Definition video_card_of (w : world) (video : Video.t) : exn + video_card :=
  let videoId := Video.videoId video in
  let isFav := isFavorited videoId w in
  and_then (toString videoId) (fun id =>
  and_then (toString (Video.title video)) (fun title =>
  and_then (toString (Video.channelTitle video)) (fun channelTitle =>
  inr (mkVideoCard id title channelTitle isFav)))).

Definition renderVideos (videos : list Video.t) : M unit :=
  let* e := read els in
  match videoList e with
  | None => ret tt
  | Some _ =>
      let* w := read (fun w => w) in
      let* m :=
        if bool_decide (length videos = 0%nat) then ret NoVideosAvailable
        else let* cards := lift (map_sum (video_card_of w) videos) in
             ret (VideoCards cards) in
      modify (fun w => set_els (set_videoList (Some (Some m)) (els w)) w)
  end.

Definition renderFavorites : M unit :=
  let* e := read els in
  match favoritesList e with
  | None => ret tt
  | Some _ =>
      let* favs := read favorites in
      let favoriteVideos :=
        List.filter (fun fav => bool_decide (Fav.type fav = "video")) favs in
      let m :=
        if bool_decide (length favoriteVideos = 0%nat) then NoFavoriteVideos
        else FavoriteCards (List.map (fun fav => fav) favoriteVideos) in
      modify (fun w => set_els (set_favoritesList (Some (Some m)) (els w)) w)
  end.

(** [arr.findIndex(p)]: the first index whose element satisfies [p], or -1. *)
Fixpoint findIndex {A} (p : A -> bool) (l : list A) : Z :=
  match l with
  | [] => (-1)%Z
  | x :: l' =>
      if p x then 0%Z
      else let i := findIndex p l' in
           if (i =? -1)%Z then (-1)%Z else (i + 1)%Z
  end.

(** [arr.splice(index, 1)] for an index that is not negative. *)
Definition splice1 {A} (index : Z) (l : list A) : list A :=
  take (Z.to_nat index) l ++ drop (S (Z.to_nat index)) l.

(** The record the toggle builds for an id that is not yet a favorite. *)
Definition newItem (button : Button.t) (tips : list Tip.t) : Fav.t :=
  let id := Button.id button in
  let type := Button.type button in
  if bool_decide (type = "quote") then
    Fav.mk id type (Button.q button) (Button.a button) None None
  else if bool_decide (type = "tip") then
    let tip := List.find (fun t => bool_decide (Tip.id t = id)) tips in
    Fav.mk id type None None
      (match tip with Some t => Some (Tip.title t) | None => Button.title button end)
      (match tip with Some t => Some (Tip.content t) | None => Button.content button end)
  else if bool_decide (type = "video") then
    Fav.mk id type None None (Button.title button) None
  else Fav.mk id type None None None None.

Definition classList_hidden (hide : bool) (name : section_name) : M unit :=
  fun w =>
    match sections (els w) name with
    | None => (Throw TypeError, w)
    | Some _ =>
        (Ret tt,
         set_els (set_sections
                    (fun n => if bool_decide (n = name) then Some hide
                              else sections (els w) n) (els w)) w)
    end.

Definition set_active (b : bool) (n : NavButton) : NavButton := mkNavButton (page n) b.

(** [handleNavigation(event)], with the function it calls to refresh as a
    parameter; [event] is the index of the [.nav-button] closest to the
    event target, if there is one. *)
Definition handleNavigation_with (reload : bool -> M unit) (event : option nat) : M unit :=
  let* buttons := read nav_buttons in
  let view := navButton ← (i ← event; buttons !! i); page navButton in
  let* current := read currentView in
  match view with
  | None | Some EmptyString => ret tt
  | Some view =>
      if bool_decide (view = current) then ret tt
      else
        let* _ := classList_hidden true homeSection in
        let* _ := classList_hidden true favoritesSection in
        let* _ := modify (fun w => set_nav_buttons (set_active false <$> nav_buttons w) w) in
        let* _ := modify (set_currentView view) in
        let* _ := modify (fun w =>
                            set_nav_buttons
                              (match event with
                               | Some i => alter (set_active true) i (nav_buttons w)
                               | None => nav_buttons w
                               end) w) in
        if bool_decide (view = "home") then
          let* _ := classList_hidden false homeSection in
          let* _ := classList_hidden false quoteSection in
          let* _ := classList_hidden false videoSidebar in
          let* _ := classList_hidden false tipsSection in
          detached (reload false)
        else if bool_decide (view = "tips") then
          let* _ := classList_hidden false homeSection in
          let* _ := classList_hidden true quoteSection in
          let* _ := classList_hidden true videoSidebar in
          let* _ := classList_hidden false tipsSection in
          detached (reload false)
        else if bool_decide (view = "favorites") then
          let* _ := classList_hidden false favoritesSection in
          let* _ := classList_hidden true quoteSection in
          let* _ := classList_hidden true videoSidebar in
          let* _ := classList_hidden true tipsSection in
          renderFavorites
        else ret tt
  end.

Definition error_tip : Tip.t :=
  Tip.mk "fail" "Data Load Error" "Could not load local tips." "Error" "System".

(** Step 1 of [loadInitialData]: the local tips. *)
Definition loadInitialData_tips : M unit :=
  let* tips := read localTipsData in
  if bool_decide (length tips = 0%nat) then
    try_catch
      (let* mockResponse := fetch local_files LOCAL_TIPS_URL in
       let* data := response_json mockResponse in
       modify (set_localTipsData data))
      (fun e =>
         let* _ := console_log "Local data.json fetch failed. Using embedded mock data." in
         modify (set_localTipsData [error_tip]))
  else ret tt.

(** Step 1 up to its [await fetch]: the guard and, when no tip is loaded, the
    request.  The result is what the pending promise will settle to; [None]
    is a call that skipped the load. *)
Definition loadInitialData_tips_request : M (option (exn + response (list Tip.t))) :=
  let* tips := read localTipsData in
  if bool_decide (length tips = 0%nat) then
    fun w =>
      match fetch local_files LOCAL_TIPS_URL w with
      | (Ret mockResponse, w') => (Ret (Some (inr mockResponse)), w')
      | (Throw e, w') => (Ret (Some (inl e)), w')
      | (OutOfFuel, w') => (OutOfFuel, w')
      end
  else ret None.

(** Step 1 from the moment its [await fetch] resumes. *)
Definition loadInitialData_tips_settle (settled : option (exn + response (list Tip.t)))
  : M unit :=
  match settled with
  | Some mockResponse =>
      try_catch
        (let* mockResponse := lift mockResponse in
         let* data := response_json mockResponse in
         modify (set_localTipsData data))
        (fun e =>
           let* _ := console_log "Local data.json fetch failed. Using embedded mock data." in
           modify (set_localTipsData [error_tip]))
  | None => ret tt
  end.

Definition message (e : exn) : string :=
  match e with
  | Error m => m
  | TypeError => "TypeError"
  | SyntaxError => "SyntaxError"
  | NetworkError => "Failed to fetch"
  | SecurityError => "SecurityError"
  | QuotaExceededError => "QuotaExceededError"
  | URIError => "URI malformed"
  end.

(** Step 2: the quote. *)
Definition loadInitialData_quote : M unit :=
  try_catch
    (let* quoteString := fetchQuote in
     let parts := List.map JsString.trim (JsString.split quoteString "—") in
     let q := or_else (List.hd "" parts) quoteString in
     let a := if bool_decide (1 < length parts)%nat
              then JsString.join "—" (List.tl parts) else "Zen Master" in
     let quoteId := getDailyQuoteId in
     renderQuote (Quote.mk q a quoteId))
    (fun e =>
       let* _ := console_log "Critical error in loadInitialData during quote fetch/render:" in
       renderQuote (Quote.mk ("Error loading quote: " +:+ message e) "System Error"
                      getDailyQuoteId)).

Definition fallbackVideos : list Video.t :=
  [ Video.mk (VStr "4R7tYqW1p5Y") (VStr "Guided Meditation for Deep Sleep")
      (VStr "Calm Channel");
    Video.mk (VStr "o2_VnL26-gI") (VStr "Full Body Stretching Routine")
      (VStr "Fitness Daily");
    Video.mk (VStr "wFk-y_Y_rYI") (VStr "Healthy Meal Prep Ideas")
      (VStr "Cooking Light") ].

Definition critical_video_error : string :=
  "Critical error in loadInitialData during video fetch (Likely Quota Exceeded):".

(** The body of the [try] of step 3. *)
Definition loadInitialData_videos_try : M unit :=
  let* currentCategory := read currentCategory in
  let videoQuery :=
    if bool_decide (currentCategory = "all") then "daily wellness" else currentCategory in
  let* videos := fetchVideos (Some videoQuery) in
  renderVideos videos.

(** Step 3: the videos, with the fallback list in the [catch]. *)
Definition loadInitialData_videos : M unit :=
  try_catch loadInitialData_videos_try
    (fun e =>
       let* _ := console_log critical_video_error in
       renderVideos fallbackVideos).

(** Step 5: the filter control and the initial view.  [handleNavigation] is
    the handler called on the button found for the current view.  The
    navigation buttons are the elements that carry a data-page attribute, and
    the selector is read for a view name that it quotes as it stands
    ([selector_plain] below): it then selects the first button whose data-page
    is the current view. *)
Definition loadInitialData_view (handleNavigation : option nat -> M unit) : M unit :=
  let* _ :=
    modify (fun w =>
              match categoryFilter (els w) with
              | Some _ => set_els (set_categoryFilter (Some (currentCategory w)) (els w)) w
              | None => w
              end) in
  let* current := read currentView in
  let* buttons := read nav_buttons in
  match list_find (fun b => page b = Some current) buttons with
  | Some (i, initialNavButton) => handleNavigation (Some i)
  | None =>
      let* _ := modify (set_currentView "home") in
      fun w =>
        match sections (els w) homeSection with
        | Some _ => classList_hidden false homeSection w
        | None => (Ret tt, w)
        end
  end.

(** [async function loadInitialData(fullFetch = true)].  It and
    [handleNavigation] call each other, so the recursion is bounded by
    [fuel]; one unit is enough (see [loadInitialData_fuel_enough]). *)
Fixpoint loadInitialData_fuel (fuel : nat) (fullFetch : bool) : M unit :=
  match fuel with
  | O => fun w => (OutOfFuel, w)
  | S fuel' =>
      let* _ := loadInitialData_tips in
      let* _ :=
        if fullFetch
        then let* _ := loadInitialData_quote in loadInitialData_videos
        else ret tt in
      let* tips := read localTipsData in
      let* _ := renderTips tips in
      loadInitialData_view (handleNavigation_with (loadInitialData_fuel fuel'))
  end.

Definition loadInitialData : bool -> M unit := loadInitialData_fuel 1.

Definition handleNavigation : option nat -> M unit := handleNavigation_with loadInitialData.

(** [handleToggleFavorite(event)]; [event] is the [.favorite-btn] closest to
    the event target, if there is one. *)
Definition handleToggleFavorite (event : option Button.t) : M unit :=
  match event with
  | None => ret tt
  | Some button =>
      let id := Button.id button in
      let* favs := read favorites in
      let index := findIndex (fun fav => bool_decide (Fav.id fav = id)) favs in
      let isAdding := (index =? -1)%Z in
      let* _ :=
        if isAdding
        then modify (fun w => set_favorites
                                (favorites w ++ [newItem button (localTipsData w)]) w)
        else modify (fun w => set_favorites (splice1 index (favorites w)) w) in
      let* favs' := read favorites in
      let* _ := storage_set keys.FAVORITES (value_of_favorites favs') in
      let* current := read currentView in
      if bool_decide (current = "favorites") then renderFavorites
      else detached (loadInitialData false)
  end.

(** [handleThemeToggle()].  The class list of the root element is outside
    [world]: [dark] says whether it holds the class dark before the click,
    the result whether it does afterwards. *)
Definition handleThemeToggle (dark : bool) : M bool :=
  let newTheme := if dark then "light" else "dark" in
  let dark' := negb dark in
  let* _ := storage_set keys.THEME (VStr newTheme) in
  ret dark'.

(** The theme step of the DOMContentLoaded handler:
    [if (storage.get(keys.THEME) === 'dark') classList.add('dark')]. *)
Definition applySavedTheme (dark : bool) : M bool :=
  let* theme := storage_get keys.THEME None in
  if strict_eq_string "dark" theme then ret true else ret dark.




(** ** Vocabulary of the statements *)

(** [sub] occurs in [s]: the code units of [sub] are a run of those of [s]. *)
Definition contains (s sub : string) : Prop :=
  exists pre post, JsString.code_units s = pre ++ JsString.code_units sub ++ post.

(** [sub] occurs in [s] when case is ignored, that is, once [lower] has
    mapped both to lower case. *)
Definition contains_ci (lower : string -> string) (s sub : string) : Prop :=
  contains (lower s) (lower sub).

(** The condition under which a tip is listed: its category is the filter
    value (or the filter is "all") and the search term is empty or occurs,
    case ignored, in its title or content. *)
Definition tip_matches (lower : string -> string) (categoryValue searchTerm : string)
    (tip : Tip.t) : Prop :=
  (Tip.category tip = categoryValue \/ categoryValue = "all")
  /\ (searchTerm = "" \/ contains_ci lower (Tip.title tip) searchTerm
      \/ contains_ci lower (Tip.content tip) searchTerm).

(** The bytes of [sub] occur, in a row, among those of [s]. *)
Fixpoint occurs (s sub : string) : bool :=
  (JsString.startsWith s sub ||
   match s with
   | EmptyString => false
   | String _ s' => occurs s' sub
   end)%bool.

(** A view name that the selector [[data-page="..."]] quotes as it stands:
    well-formed text without a double quote, a backslash, a line break or a
    null character. *)
Definition selector_plain (view : string) : Prop :=
  is_Some (JsString.encodeURIComponent view)
  /\ Forall (fun c => nat_of_ascii c ∉ [0; 10; 12; 13; 34; 92]%nat)
       (list_ascii_of_string view).


(** The key is neither empty nor the placeholder. *)
Definition configured (w : world) : Prop :=
  YOUTUBE_API_KEY (env w) <> "" /\ YOUTUBE_API_KEY (env w) <> "YOUR_YOUTUBE_API_KEY".

(** The module variables of app.js. *)
Definition in_memory (w : world) : list Fav.t * list Tip.t * string * string * string :=
  (favorites w, localTipsData w, currentView w, currentSearchTerm w, currentCategory w).

(** The world after a sequence of clicks handled by [handleToggleFavorite]. *)
Definition toggles (events : list (option Button.t)) (w : world) : world :=
  fold_left (fun w event => (handleToggleFavorite event w).2) events w.


(** How many requests for data.json were sent so far. *)
Definition tips_requests (w : world) : nat :=
  length (filter (fun url => url = LOCAL_TIPS_URL) (requests w)).

(** What one toggle of [button] does to the favorites: it appends the new
    entry when no entry has the button's id, and otherwise removes the entry
    with that id. *)
Definition toggle_step (button : Button.t) (tips : list Tip.t) (before after : list Fav.t)
  : Prop :=
  ((Button.id button ∉ (Fav.id <$> before))
   /\ after = before ++ [newItem button tips]
   /\ Fav.id (newItem button tips) = Button.id button)
  \/ (exists l1 e l2,
        before = l1 ++ e :: l2 /\ Fav.id e = Button.id button
        /\ after = l1 ++ l2 /\ Button.id button ∉ (Fav.id <$> after)).

(** An observation of the world that rendering, logging, navigation, the
    preference store and the requests to the remote providers leave alone. *)
Class ViewBlind {A} (f : world -> A) : Prop :=
  { blind_console : forall l w, f (set_console l w) = f w;
    blind_els : forall e w, f (set_els e w) = f w;
    blind_nav_buttons : forall n w, f (set_nav_buttons n w) = f w;
    blind_currentView : forall v w, f (set_currentView v w) = f w;
    blind_localStorage : forall m w, f (set_localStorage m w) = f w;
    blind_remote : forall url w,
      url <> LOCAL_TIPS_URL -> f (set_requests (requests w ++ [url]) w) = f w }.

(** A computation leaves the observation [f] of the world alone. *)
Definition preserves {A B} (f : world -> A) (c : M B) : Prop :=
  forall w, f (c w).2 = f w.

(** A computation always completes normally. *)
Definition total {B} (c : M B) : Prop := forall w, exists b, (c w).1 = Ret b.

(** The three lists [fetchVideos] can return. *)
Definition fetchVideos_list (query : option string) (w : world) (l : list Video.t) : Prop :=
  l = mock_videos \/ l = []
  \/ exists url r data items,
       apiUrl (YOUTUBE_API_KEY (env w)) (default "daily motivation" query) = Some url
       /\ network (env w) (length (requests w)) url = Responded r
       /\ ok r = true /\ json r = Some data
       /\ get data "items" = inr (VArr items)
       /\ map_sum simplify_item items = inr l.

(** The favorites after one toggle, as the code computes them. *)
Definition toggled (button : Button.t) (tips : list Tip.t) (favs : list Fav.t) : list Fav.t :=
  let index := findIndex (fun fav => bool_decide (Fav.id fav = Button.id button)) favs in
  if (index =? -1)%Z then favs ++ [newItem button tips] else splice1 index favs.


(** What fetching and rendering the three lists never touch: the module
    variables other than the tips, the controls, the sections, the favorites
    list, the navigation buttons, the store and the environment. *)
Definition steady (w : world) :=
  (favorites w, currentView w, currentSearchTerm w, currentCategory w,
   nav_buttons w, localStorage w, env w,
   searchInput (els w), categoryFilter (els w), sections (els w), favoritesList (els w)).

(** The part of [steady] that step 5 of [loadInitialData] leaves alone as well. *)
Definition settled (w : world) :=
  (favorites w, currentSearchTerm w, currentCategory w, nav_buttons w,
   localStorage w, env w, searchInput (els w), favoritesList (els w)).

(** The four lists as the renderers left them. *)
Definition lists (w : world) :=
  (quoteContent (els w), tipsList (els w), videoList (els w), favoritesList (els w)).

(** Whether a section is hidden in a view: the table of [handleNavigation]. *)
Definition hidden_in (view : string) (n : section_name) : bool :=
  match n with
  | homeSection => bool_decide (view = "favorites")
  | favoritesSection => negb (bool_decide (view = "favorites"))
  | tipsSection => bool_decide (view = "favorites")
  | quoteSection | videoSidebar => negb (bool_decide (view = "home"))
  end.

(** The videos of a list of provider items, when every item has the shape. *)
Definition video_of_item (item : value) : option Video.t :=
  match simplify_item item with
  | inr v => Some v
  | inl _ => None
  end.

(** The world after steps 1 to 4 of [loadInitialData]. *)
Definition loaded_world (fullFetch : bool) (w : world) : world :=
  let w1 := (loadInitialData_tips w).2 in
  let w2 := if fullFetch then (loadInitialData_videos (loadInitialData_quote w1).2).2 else w1 in
  (renderTips (localTipsData w2) w2).2.

(** The world after step 5, spelled out. *)
Definition viewed_world (w : world) : world :=
  let w1 := match categoryFilter (els w) with
            | Some _ => set_els (set_categoryFilter (Some (currentCategory w)) (els w)) w
            | None => w
            end in
  match list_find (fun b => page b = Some (currentView w)) (nav_buttons w) with
  | Some _ => w1
  | None =>
      let w2 := set_currentView "home" w1 in
      match sections (els w2) homeSection with
      | Some _ =>
          set_els (set_sections
                     (fun n => if bool_decide (n = homeSection) then Some false
                               else sections (els w2) n) (els w2)) w2
      | None => w2
      end
  end.

(** The request for data.json, sent only while no tip is loaded. *)
Definition tips_request (w : world) : list string :=
  if bool_decide (length (localTipsData w) = 0%nat) then [LOCAL_TIPS_URL] else [].

(** The request for videos, sent only with a configured key and a category
    that [encodeURIComponent] accepts. *)
Definition videos_request (w : world) : list string :=
  let key := YOUTUBE_API_KEY (env w) in
  let videoQuery :=
    if bool_decide (currentCategory w = "all") then "daily wellness" else currentCategory w in
  if (bool_decide (key = "YOUR_YOUTUBE_API_KEY") || bool_decide (key = ""))%bool then []
  else match apiUrl key videoQuery with
       | Some url => [url]
       | None => []
       end.

(** The world after the push or splice and the write to the store. *)
Definition toggled_world (button : Button.t) (w : world) : world :=
  let w1 := set_favorites (toggled button (localTipsData w) (favorites w)) w in
  (storage_set keys.FAVORITES (value_of_favorites (favorites w1)) w1).2.

(** The class hidden of one section set or cleared. *)
Definition set_hidden (hide : bool) (name : section_name) (w : world) : world :=
  set_els (set_sections (fun n => if bool_decide (n = name) then Some hide
                                  else sections (els w) n) (els w)) w.

(** Every section element exists. *)
Definition all_sections (w : world) : Prop := forall n, is_Some (sections (els w) n).


(** ** Sample worlds

    Concrete environments and worlds on which the statements below are run. *)

(** A stand-in for the platform's JSON functions on three literals. *)
Definition sample_parse (s : string) : option value :=
  if bool_decide (s = "[]") then Some (VArr [])
  else if bool_decide (s = "true") then Some (VBool true)
  else if bool_decide (s = "null") then Some VNull
  else None.

Definition sample_stringify (v : value) : string :=
  match v with
  | VArr [] => "[]"
  | VBool true => "true"
  | VNull => "null"
  | _ => "{}"
  end.

(** A stand-in for String.prototype.toLowerCase that agrees with it on ASCII
    text: the letters A to Z are lowered, every other byte is kept. *)
Definition ascii_lower (c : ascii) : ascii :=
  let n := nat_of_ascii c in
  if (Nat.leb 65 n && Nat.leb n 90)%bool then ascii_of_nat (n + 32) else c.

Fixpoint ascii_toLowerCase (s : string) : string :=
  match s with
  | EmptyString => EmptyString
  | String c s' => String (ascii_lower c) (ascii_toLowerCase s')
  end.

(** No network, no data.json, a working localStorage. *)
Definition offline_env (key : string) : Env :=
  mkEnv key sample_parse sample_stringify
    (fun _ _ => NetworkFault) (fun _ _ => NetworkFault) true (fun _ _ _ => true)
    ascii_toLowerCase.

Definition sample_els : Els :=
  mkEls (Some None) (Some None) (Some None) (Some None) (Some "") (Some "all")
    (fun _ => Some false).

Definition fresh_world (e : Env) : world :=
  mkWorld [] [] "home" "" "all" sample_els [] ∅ [] [] e.

(** A category that holds the lone surrogate U+D800. *)
Definition lone_surrogate : string :=
  String (ascii_of_nat 237) (String (ascii_of_nat 160) (String (ascii_of_nat 128) "")).

Definition surrogate_world : world :=
  mkWorld [] [] "home" "" lone_surrogate sample_els [] ∅ [] [] (offline_env "configured-key").

Definition yoga_tip : Tip.t := Tip.mk "t1" "Yoga" "Stretch" "fitness" "Coach".


Definition quote_fav : Fav.t :=
  Fav.mk "daily-quote-inspiration" "quote" (Some "Be kind") (Some "Anon") None None.
Definition tip_fav : Fav.t := Fav.mk "t1" "tip" None None (Some "Yoga") (Some "Stretch").
Definition video_fav : Fav.t :=
  Fav.mk "e-g-j8Jt4_8" "video" None None (Some "5 Minute Morning Meditation") None.

(** One favorite of each type, seen from the favorites view. *)
Definition favorites_world : world :=
  mkWorld [quote_fav; tip_fav; video_fav] [yoga_tip] "favorites" "" "all" sample_els
    [] ∅ [] [] (offline_env "configured-key").

Definition video_button : Button.t :=
  Button.mk "e-g-j8Jt4_8" "video" None None (Some "5 Minute Morning Meditation") None.

Definition tip_button : Button.t :=
  Button.mk "t2" "tip" None None (Some "Walk") (Some "Ten minutes a day").

(** One favorite of each type, seen from the home view. *)
Definition home_world : world :=
  mkWorld [quote_fav; tip_fav; video_fav] [yoga_tip] "home" "" "all" sample_els
    [mkNavButton (Some "home") true; mkNavButton (Some "favorites") false]
    ∅ [] [] (offline_env "configured-key").



(** A stand-in for the JSON functions that also handles the two theme names;
    [quoted s] is [s] between double quotes. *)
Definition quoted (s : string) : string :=
  String (ascii_of_nat 34) (s +:+ String (ascii_of_nat 34) "").

Definition theme_parse (s : string) : option value :=
  if bool_decide (s = quoted "dark") then Some (VStr "dark")
  else if bool_decide (s = quoted "light") then Some (VStr "light")
  else sample_parse s.

Definition theme_stringify (v : value) : string :=
  match v with
  | VStr s => quoted s
  | _ => sample_stringify v
  end.

Definition theme_env : Env :=
  mkEnv "configured-key" theme_parse theme_stringify
    (fun _ _ => NetworkFault) (fun _ _ => NetworkFault) true (fun _ _ _ => true)
    ascii_toLowerCase.


(** A page without the home section. *)
Definition no_home_world : world :=
  mkWorld [] [yoga_tip] "home" "" "all"
    (mkEls (Some None) (Some None) (Some None) (Some None) (Some "") (Some "all")
       (fun n => if bool_decide (n = homeSection) then None else Some false))
    [mkNavButton (Some "home") true; mkNavButton (Some "favorites") false]
    ∅ [] [] (offline_env "configured-key").

(** A page with a button for an unknown view. *)
Definition about_world : world :=
  mkWorld [] [yoga_tip] "home" "" "all" sample_els
    [mkNavButton (Some "home") true; mkNavButton (Some "about") false]
    ∅ [] [] (offline_env "configured-key").

(** Both providers answer: a quote for every request to the quote URL, one
    search result for every other request. *)
Definition sample_item : value :=
  VObj [("id", VObj [("kind", VStr "youtube#video"); ("videoId", VStr "abc123")]);
        ("snippet", VObj [("title", VStr "Morning Stretch");
                          ("channelTitle", VStr "Fit Channel")])].

Definition online_env : Env :=
  mkEnv "configured-key" sample_parse sample_stringify
    (fun _ _ => NetworkFault)
    (fun _ url =>
       if bool_decide (url = QUOTE_API_URL)
       then Responded (mkResponse true 200 "OK" None
                         (Some (VObj [("content", VStr "Be kind "); ("author", VStr "Anon")])))
       else Responded (mkResponse true 200 "OK" None
                         (Some (VObj [("items", VArr [sample_item])]))))
    true (fun _ _ _ => true) ascii_toLowerCase.

(** The providers answer with fields that have no text: the quote has a
    content with a property toString of its own, the one search result a
    title with one. *)
Definition unprintable : value := VObj [("toString", VNum "1")].

Definition unprintable_env : Env :=
  mkEnv "configured-key" sample_parse sample_stringify
    (fun _ _ => NetworkFault)
    (fun _ url =>
       if bool_decide (url = QUOTE_API_URL)
       then Responded (mkResponse true 200 "OK" None
                         (Some (VObj [("content", unprintable); ("author", VStr "Anon")])))
       else Responded
              (mkResponse true 200 "OK" None
                 (Some (VObj [("items",
                               VArr [VObj [("id", VObj [("videoId", VStr "abc123")]);
                                           ("snippet",
                                            VObj [("title", unprintable);
                                                  ("channelTitle", VStr "Fit Channel")])]])]))))
    true (fun _ _ _ => true) ascii_toLowerCase.

(** * Properties *)

Ltac run :=
  unfold try_catch, detached, bind, ret, throw, read, modify, lift, console_log,
    fetch, response_json, response_text in *; cbn [fst snd] in *.

(** ** The built-ins on sample inputs *)

Example toLowerCase_sample : ascii_toLowerCase "Yoga Basics" = "yoga basics".
Proof. reflexivity. Qed.

(** A no-break space (C2 A0) in front, an ideographic space (E3 80 80) and a
    byte order mark (EF BB BF) behind. *)
Example trim_sample :
  JsString.trim "  daily  wellness " = "daily  wellness"
  /\ JsString.trim
       (String (ascii_of_nat 194) (String (ascii_of_nat 160)
          ("yoga" +:+ String (ascii_of_nat 227) (String (ascii_of_nat 128)
             (String (ascii_of_nat 128) (String (ascii_of_nat 239)
                (String (ascii_of_nat 187) (String (ascii_of_nat 191) "")))))))) = "yoga".
Proof. split; reflexivity. Qed.

(** U+10000 is the bytes F0 90 80 80 and the code units D800 DC00; the lone
    surrogate D800 is among them, though its bytes ED A0 80 are not. *)
Example includes_sample :
  JsString.includes "yoga basics" "ga b" = true /\ JsString.includes "yoga" " " = false
  /\ JsString.code_units "é—" = [233; 8212]%N
  /\ JsString.code_units
       (String (ascii_of_nat 240) (String (ascii_of_nat 144) (String (ascii_of_nat 128)
          (String (ascii_of_nat 128) ""))))
     = [55296; 56320]%N
  /\ JsString.includes
       (String (ascii_of_nat 240) (String (ascii_of_nat 144) (String (ascii_of_nat 128)
          (String (ascii_of_nat 128) ""))))
       lone_surrogate = true.
Proof. repeat split; reflexivity. Qed.

Example split_sample : JsString.split "a — b — c" "—" = ["a "; " b "; " c"].
Proof. reflexivity. Qed.

Example encodeURIComponent_sample :
  JsString.encodeURIComponent "daily wellness" = Some "daily%20wellness"
  /\ JsString.encodeURIComponent "café" = Some "caf%C3%A9".
Proof. split; reflexivity. Qed.

Example toString_sample :
  toString (VArr [VNum "1"; VNull; VStr "a"; VArr [VBool true; VNum "1e+21"]])
  = inr "1,,a,true,1e+21"
  /\ toString (VObj [("content", VStr "a")]) = inr "[object Object]"
  /\ toString (VArr [VStr "a"; VObj [("toString", VNum "1")]]) = inl TypeError.
Proof. repeat split; reflexivity. Qed.

(** A field without text: [fetchQuote] falls back, and [fetchVideos] returns
    the video, which [renderVideos] then fails to write. *)
Example unprintable_sample :
  (fetchQuote (fresh_world unprintable_env)).1 = Ret fallback_quote
  /\ (fetchVideos (Some "yoga") (fresh_world unprintable_env)).1
     = Ret [Video.mk (VStr "abc123") unprintable (VStr "Fit Channel")]
  /\ (renderVideos [Video.mk (VStr "abc123") unprintable (VStr "Fit Channel")]
        (fresh_world unprintable_env)).1 = Throw TypeError
  /\ console (loadInitialData_videos (fresh_world unprintable_env)).2 = [critical_video_error].
Proof. repeat split; vm_compute; reflexivity. Qed.

Example findIndex_sample :
  findIndex (Nat.eqb 3) [1; 2; 3; 3]%nat = 2%Z /\ findIndex (Nat.eqb 7) [1; 2; 3]%nat = (-1)%Z
  /\ splice1 2 [1; 2; 3; 3]%nat = [1; 2; 3]%nat.
Proof. repeat split. Qed.

(** ** js/api.js *)

(** C4. [fetchQuote] never rejects.  A network fault, a status that is not
    ok, a body that does not parse, and a body whose content or author cannot
    be converted to text give the fallback quote; an ok response whose body is
    an object gives the text of its content and author fields around the
    dash. *)
Theorem fetchQuote_result (w : world) :
  (fetchQuote w).1 =
    match network (env w) (length (requests w)) QUOTE_API_URL with
    | NetworkFault => Ret fallback_quote
    | Responded r =>
        if ok r then
          match json r with
          | Some (VObj fields) =>
              match toString (assoc "content" fields), toString (assoc "author" fields) with
              | inr content, inr author => Ret (content +:+ " — " +:+ author)
              | _, _ => Ret fallback_quote
              end
          | Some (VUndef | VNull) | None => Ret fallback_quote
          | Some _ => Ret "undefined — undefined"
          end
        else Ret fallback_quote
    end.
Proof.
  unfold fetchQuote. run.
  destruct (network _ _ _) as [|r]; [reflexivity|].
  destruct (ok r); cbn; [|reflexivity].
  destruct (json r) as [[| | | | | |fields]|]; try reflexivity.
  cbn -[toString].
  destruct (toString (assoc "content" fields)); cbn -[toString]; [reflexivity|].
  destruct (toString (assoc "author" fields)); reflexivity.
Qed.

(** C5. With an empty or placeholder key [fetchVideos] gives the two mock
    videos and sends no request. *)
Theorem fetchVideos_mock_without_key (query : option string) (w : world) :
  YOUTUBE_API_KEY (env w) = "" \/ YOUTUBE_API_KEY (env w) = "YOUR_YOUTUBE_API_KEY" ->
  (fetchVideos query w).1 = Ret mock_videos
  /\ length mock_videos = 2%nat
  /\ requests (fetchVideos query w).2 = requests w.
Proof.
  intros Hkey. unfold fetchVideos. run.
  destruct Hkey as [-> | ->]; cbn; auto.
Qed.

Lemma fetchVideos_mock_without_key_witness :
  (fetchVideos (Some "yoga") (fresh_world (offline_env ""))).1 = Ret mock_videos
  /\ length mock_videos = 2%nat
  /\ requests (fetchVideos (Some "yoga") (fresh_world (offline_env ""))).2 = [].
Proof.
  apply (fetchVideos_mock_without_key (Some "yoga") (fresh_world (offline_env ""))).
  left. reflexivity.
Defined.

Lemma configured_guard w :
  configured w ->
  (bool_decide (YOUTUBE_API_KEY (env w) = "YOUR_YOUTUBE_API_KEY")
   || bool_decide (YOUTUBE_API_KEY (env w) = ""))%bool = false.
Proof.
  intros [H1 H2]. rewrite !bool_decide_eq_false_2; auto.
Qed.

(** C6. With a configured key the search request is sent, and when it ends in
    a network fault, a status that is not ok, a body that does not parse, or a
    body without the expected shape, the result is the empty list, which is
    not the mock list. *)
Theorem fetchVideos_fault_is_empty (query : option string) (url : string) (w : world) :
  configured w ->
  apiUrl (YOUTUBE_API_KEY (env w)) (default "daily motivation" query) = Some url ->
  requests (fetchVideos query w).2 = requests w ++ [url]
  /\ (network (env w) (length (requests w)) url = NetworkFault
      \/ (exists r, network (env w) (length (requests w)) url = Responded r
                    /\ (ok r = false \/ json r = None
                        \/ exists data e,
                             json r = Some data
                             /\ and_then (get data "items") (array_map simplify_item)
                                = inl e)) ->
      (fetchVideos query w).1 = Ret [] /\ [] <> mock_videos).
Proof.
  intros Hc Hurl. unfold fetchVideos. run.
  rewrite (configured_guard w Hc), Hurl. cbn.
  destruct (network _ _ _) as [|r] eqn:Hnet.
  - cbn. split; [reflexivity|]. intros _. split; [reflexivity | discriminate].
  - destruct (ok r) eqn:Hok; cbn.
    + destruct (json r) as [data|] eqn:Hjson; cbn.
      * split.
        { destruct (get data "items") as [e|items]; cbn; [reflexivity|].
          destruct (array_map simplify_item items); reflexivity. }
        intros [? | (r' & [= <-] & [? | [? | (data' & e & Hdata & Hmap)]])];
          try congruence.
        assert (data' = data) as -> by congruence.
        split; [|discriminate].
        destruct (get data "items") as [e'|items]; cbn in *; [reflexivity|].
        rewrite Hmap. reflexivity.
      * split; [reflexivity|]. intros _. split; [reflexivity | discriminate].
    + split.
      { destruct (text r); reflexivity. }
      intros _. split; [destruct (text r); reflexivity | discriminate].
Qed.

Lemma fetchVideos_fault_is_empty_witness :
  (fetchVideos (Some "yoga") (fresh_world (offline_env "configured-key"))).1 = Ret [].
Proof.
  refine (proj1 (proj2 (fetchVideos_fault_is_empty (Some "yoga") _
                          (fresh_world (offline_env "configured-key")) _ _) _)).
  - split; discriminate.
  - reflexivity.
  - left. reflexivity.
Defined.

(** ** Frame conditions: what a computation leaves alone *)

Section Preserves.
Context {A : Type} (f : world -> A).

Lemma preserves_ret {B} (b : B) : preserves f (ret b).
Proof. intros w. reflexivity. Qed.

Lemma preserves_throw {B} (e : exn) : preserves f (@throw B e).
Proof. intros w. reflexivity. Qed.

Lemma preserves_read {B} (g : world -> B) : preserves f (read g).
Proof. intros w. reflexivity. Qed.

Lemma preserves_lift {B} (r : exn + B) : preserves f (lift r).
Proof. intros w. destruct r; reflexivity. Qed.

Lemma preserves_modify (g : world -> world) :
  (forall w, f (g w) = f w) -> preserves f (modify g).
Proof. intros H w. apply H. Qed.

Lemma preserves_bind {B C} (c : M B) (k : B -> M C) :
  preserves f c -> (forall b, preserves f (k b)) -> preserves f (bind c k).
Proof.
  intros Hc Hk w. unfold bind. specialize (Hc w).
  destruct (c w) as [[b|e|] w']; cbn in *; [|assumption..].
  rewrite Hk. assumption.
Qed.

Lemma preserves_try_catch {B} (body : M B) (handler : exn -> M B) :
  preserves f body -> (forall e, preserves f (handler e)) ->
  preserves f (try_catch body handler).
Proof.
  intros Hb Hh w. unfold try_catch. specialize (Hb w).
  destruct (body w) as [[b|e|] w']; cbn in *; [assumption| |assumption].
  rewrite Hh. assumption.
Qed.

Lemma preserves_detached (c : M unit) : preserves f c -> preserves f (detached c).
Proof.
  intros Hc w. unfold detached. specialize (Hc w).
  destruct (c w) as [[b|e|] w']; assumption.
Qed.

Lemma preserves_response_json {B} (r : response B) : preserves f (response_json r).
Proof. intros w. unfold response_json. destruct (json r); reflexivity. Qed.

Lemma preserves_response_text {B} (r : response B) : preserves f (response_text r).
Proof. intros w. unfold response_text. destruct (text r); reflexivity. Qed.

Lemma preserves_console_log (line : string) :
  (forall l w, f (set_console l w) = f w) -> preserves f (console_log line).
Proof. intros H w. apply H. Qed.

Lemma preserves_fetch {B} (oracle : Env -> nat -> string -> fetch_outcome B) url :
  (forall w, f (set_requests (requests w ++ [url]) w) = f w) ->
  preserves f (fetch oracle url).
Proof.
  intros H w. unfold fetch. destruct (oracle _ _ _); apply H.
Qed.

Lemma preserves_getItem key : preserves f (localStorage_getItem key).
Proof. intros w. unfold localStorage_getItem. destruct (storage_readable _); reflexivity. Qed.

Lemma preserves_setItem key data :
  (forall m w, f (set_localStorage m w) = f w) ->
  preserves f (localStorage_setItem key data).
Proof.
  intros H w. unfold localStorage_setItem.
  destruct (storage_readable _); cbn; [|reflexivity].
  destruct (storage_accepts _ _ _ _); [apply H | reflexivity].
Qed.

Lemma preserves_classList hide name :
  (forall e w, f (set_els e w) = f w) -> preserves f (classList_hidden hide name).
Proof.
  intros H w. unfold classList_hidden. destruct (sections _ _); [apply H | reflexivity].
Qed.

End Preserves.

Ltac frame_side :=
  first [ reflexivity | solve [auto]
        | solve [auto using blind_console, blind_els, blind_nav_buttons,
                   blind_currentView, blind_localStorage]
        | idtac ].

(** Breaks a frame goal down along the structure of the computation. *)
Ltac frame_step :=
  match goal with
  | |- preserves _ (bind _ _) => apply preserves_bind; [|intros ?]
  | |- preserves _ (try_catch _ _) => apply preserves_try_catch; [|intros ?]
  | |- preserves _ (detached _) => apply preserves_detached
  | |- preserves _ (ret _) => apply preserves_ret
  | |- preserves _ (throw _) => apply preserves_throw
  | |- preserves _ (read _) => apply preserves_read
  | |- preserves _ (lift _) => apply preserves_lift
  | |- preserves _ (response_json _) => apply preserves_response_json
  | |- preserves _ (response_text _) => apply preserves_response_text
  | |- preserves _ (localStorage_getItem _) => apply preserves_getItem
  | |- preserves _ (console_log _) => apply preserves_console_log; intros; frame_side
  | |- preserves _ (modify _) => apply preserves_modify; intros; frame_side
  | |- preserves _ (classList_hidden _ _) => apply preserves_classList; intros; frame_side
  | |- preserves _ (localStorage_setItem _ _) => apply preserves_setItem; intros; frame_side
  | |- preserves _ (match ?x with _ => _ end) => destruct x
  | |- preserves _ (if ?x then _ else _) => destruct x
  | H : preserves ?f ?c |- preserves ?f ?c => exact H
  | H : forall x, preserves ?f (?c x) |- preserves ?f (?c _) => apply H
  end.

Ltac frame := repeat frame_step.

(** Reads a goal about one run as a frame goal. *)
Ltac as_frame :=
  match goal with
  | |- ?f (?c ?w).2 = ?f ?w => generalize w; change (preserves f c)
  end.

Lemma renderQuote_frame {A} (f : world -> A) quote :
  (forall e w, f (set_els e w) = f w) -> (forall l w, f (set_console l w) = f w) ->
  preserves f (renderQuote quote).
Proof.
  intros He Hc. unfold renderQuote. frame.
Qed.

Lemma renderTips_frame {A} (f : world -> A) tips :
  (forall e w, f (set_els e w) = f w) -> preserves f (renderTips tips).
Proof.
  intros He. unfold renderTips. frame.
Qed.

Lemma renderVideos_frame {A} (f : world -> A) videos :
  (forall e w, f (set_els e w) = f w) -> preserves f (renderVideos videos).
Proof.
  intros He. unfold renderVideos. frame.
Qed.

Lemma renderFavorites_frame {A} (f : world -> A) :
  (forall e w, f (set_els e w) = f w) -> preserves f renderFavorites.
Proof.
  intros He. unfold renderFavorites. frame.
Qed.

(** ** Running a computation that completes *)

Lemma bind_run {B C} (c : M B) (k : B -> M C) w b :
  (c w).1 = Ret b -> bind c k w = k b (c w).2.
Proof.
  unfold bind. destruct (c w) as [[b'|e|] w']; cbn; intros [= ->]. reflexivity.
Qed.

Lemma try_catch_run {B} (body : M B) handler w b :
  (body w).1 = Ret b -> try_catch body handler w = body w.
Proof.
  unfold try_catch. destruct (body w) as [[b'|e|] w']; cbn; intros [= ->]. reflexivity.
Qed.

Lemma detached_run (c : M unit) w b : (c w).1 = Ret b -> detached c w = c w.
Proof.
  unfold detached. destruct (c w) as [[b'|e|] w']; cbn; intros [= ->]. reflexivity.
Qed.

Lemma total_bind {B C} (c : M B) (k : B -> M C) :
  total c -> (forall b, total (k b)) -> total (bind c k).
Proof.
  intros Hc Hk w. destruct (Hc w) as [b Hb]. rewrite (bind_run _ _ _ _ Hb). apply Hk.
Qed.

Lemma total_unit (c : M unit) w : total c -> (c w).1 = Ret tt.
Proof. intros H. destruct (H w) as [[] Hb]. exact Hb. Qed.

Lemma renderQuote_total quote : total (renderQuote quote).
Proof.
  intros w. unfold renderQuote. run. destruct (quoteContent (els w)); eauto.
Qed.

Lemma renderTips_total tips : total (renderTips tips).
Proof.
  intros w. unfold renderTips. run. destruct (tipsList (els w)); eauto.
Qed.

(** [renderVideos] completes or throws, and throws only out of a conversion
    to text. *)
Lemma renderVideos_outcome videos w :
  (renderVideos videos w).1 = Ret tt
  \/ exists e, map_sum (video_card_of w) videos = inl e
               /\ renderVideos videos w = (Throw e, w).
Proof.
  unfold renderVideos. run. destruct (videoList (els w)); [|auto].
  destruct (bool_decide _); cbn; [auto|].
  destruct (map_sum _ _) as [e|cards]; cbn; eauto.
Qed.


Lemma renderVideos_nil_total : total (renderVideos []).
Proof.
  intros w. unfold renderVideos. run. destruct (videoList (els w)); eauto.
Qed.

Lemma renderVideos_fallback_total : total (renderVideos fallbackVideos).
Proof.
  intros w. unfold renderVideos. run. destruct (videoList (els w)); eauto.
Qed.



Lemma renderFavorites_total : total renderFavorites.
Proof.
  intros w. unfold renderFavorites. run. destruct (favoritesList (els w)); eauto.
Qed.

Lemma fetchQuote_total : total fetchQuote.
Proof.
  intros w. unfold fetchQuote. run.
  destruct (network _ _ _) as [|r]; cbn; [eauto|].
  destruct (ok r); cbn; [|eauto].
  destruct (json r) as [[| | | | | |fields]|]; cbn; eauto.
  destruct (toString (assoc "content" fields)); cbn -[toString]; eauto.
  destruct (toString (assoc "author" fields)); cbn; eauto.
Qed.

Lemma apiUrl_well_formed key query :
  JsString.encodeURIComponent query <> None -> exists url, apiUrl key query = Some url.
Proof.
  unfold apiUrl. destruct (JsString.encodeURIComponent query); [eauto | congruence].
Qed.

Lemma fetchVideos_outcome query w :
  (exists l, (fetchVideos query w).1 = Ret l /\ fetchVideos_list query w l)
  \/ ((fetchVideos query w).1 = Throw URIError
      /\ (fetchVideos query w).2 = w
      /\ configured w
      /\ JsString.encodeURIComponent (default "daily motivation" query) = None).
Proof.
  unfold fetchVideos, fetchVideos_list. run.
  destruct (bool_decide (_ = "YOUR_YOUTUBE_API_KEY")) eqn:H1; cbn.
  { left. eexists. split; [reflexivity | auto]. }
  destruct (bool_decide (_ = "")) eqn:H2; cbn.
  { left. eexists. split; [reflexivity | auto]. }
  apply bool_decide_eq_false in H1, H2.
  destruct (apiUrl _ _) as [url|] eqn:Hurl; cbn.
  2:{ right. repeat split; try assumption.
      unfold apiUrl in Hurl. destruct (JsString.encodeURIComponent _); [discriminate | reflexivity]. }
  left. destruct (network _ _ _) as [|r] eqn:Hnet; cbn.
  { eexists. split; [reflexivity | auto]. }
  destruct (ok r) eqn:Hok; cbn.
  2:{ destruct (text r); cbn; eexists; (split; [reflexivity | auto]). }
  destruct (json r) as [data|] eqn:Hjson; cbn.
  2:{ eexists. split; [reflexivity | auto]. }
  destruct (get data "items") as [e|items] eqn:Hitems; cbn.
  { eexists. split; [reflexivity | auto]. }
  destruct (array_map simplify_item items) as [e|l] eqn:Hmap; cbn.
  { eexists. split; [reflexivity | auto]. }
  eexists. split; [reflexivity|]. right. right.
  destruct items; try discriminate. cbn in Hmap.
  eexists url, r, data, _. repeat split; eassumption.
Qed.

(** C10 (amended).  When the key is not configured, or the query holds no lone
    surrogate, [fetchVideos] returns a list: the mock list, the empty list, or
    the provider's items mapped to videos.  Under the same condition on the
    current category, step 3 of [loadInitialData] gets a list from
    [fetchVideos], and what is left inside its [try] is the rendering of that
    list: no failure of [fetchVideos] reaches the [catch]. *)
Theorem fetchVideos_returns_a_list :
  (forall (query : option string) (w : world),
      ~ configured w \/ JsString.encodeURIComponent (default "daily motivation" query) <> None ->
      exists l, (fetchVideos query w).1 = Ret l /\ fetchVideos_list query w l)
  /\ (forall w : world,
        ~ configured w \/ JsString.encodeURIComponent (currentCategory w) <> None ->
        let videoQuery :=
          if bool_decide (currentCategory w = "all") then "daily wellness"
          else currentCategory w in
        exists videos,
          (fetchVideos (Some videoQuery) w).1 = Ret videos
          /\ loadInitialData_videos w
             = try_catch (renderVideos videos)
                 (fun e =>
                    let* _ := console_log critical_video_error in
                    renderVideos fallbackVideos)
                 (fetchVideos (Some videoQuery) w).2).
Proof.
  split.
  - intros query w Hq.
    destruct (fetchVideos_outcome query w) as [H | (_ & _ & Hc & Hnone)]; [exact H|].
    destruct Hq; contradiction.
  - intros w Hq q.
    destruct (fetchVideos_outcome (Some q) w) as [(l & Hl & _) | (_ & _ & Hc & Hnone)].
    + exists l. split; [exact Hl|].
      unfold loadInitialData_videos, loadInitialData_videos_try, try_catch.
      rewrite (bind_run _ _ w (currentCategory w)) by reflexivity.
      cbn [read snd]. fold q. rewrite (bind_run _ _ _ _ Hl). reflexivity.
    + exfalso. destruct Hq as [Hq | Hq]; [contradiction|].
      subst q. cbn in Hnone. destruct (bool_decide _); [discriminate | contradiction].
Qed.

Lemma fetchVideos_returns_a_list_witness :
  exists l, (fetchVideos (Some "yoga") (fresh_world (offline_env "configured-key"))).1 = Ret l.
Proof.
  destruct (proj1 fetchVideos_returns_a_list (Some "yoga")
              (fresh_world (offline_env "configured-key"))) as [l [Hl _]].
  - right. discriminate.
  - exists l. exact Hl.
Defined.

(** C10, as stated, fails: a query that holds a lone surrogate makes
    [encodeURIComponent] throw before the [try], so [fetchVideos] rejects, and
    with such a category [loadInitialData] ends in its [catch], logs the
    failure and renders the three fallback videos. *)
Lemma fetchVideos_rejects_lone_surrogate :
  (fetchVideos (Some lone_surrogate) surrogate_world).1 = Throw URIError
  /\ console (loadInitialData_videos surrogate_world).2 = [critical_video_error]
  /\ videoList (els (loadInitialData_videos surrogate_world).2)
     = Some (Some (VideoCards
                     [ mkVideoCard "4R7tYqW1p5Y" "Guided Meditation for Deep Sleep"
                         "Calm Channel" false;
                       mkVideoCard "o2_VnL26-gI" "Full Body Stretching Routine"
                         "Fitness Daily" false;
                       mkVideoCard "wFk-y_Y_rYI" "Healthy Meal Prep Ideas"
                         "Cooking Light" false ])).
Proof. repeat split; vm_compute; reflexivity. Qed.

(** ** Strings and lists *)

Lemma startsWith_spec s sub :
  JsString.startsWith s sub = true <-> exists post, s = sub +:+ post.
Proof.
  revert s. induction sub as [|a sub IH]; intros s; cbn.
  - split; [eauto | intros _; destruct s; reflexivity].
  - destruct s as [|b s]; cbn.
    + split; [discriminate | intros [post [=]]].
    + rewrite andb_true_iff, bool_decide_eq_true, IH. split.
      * intros [-> [post ->]]. eauto.
      * intros [post [= -> ->]]. eauto.
Qed.

Lemma starts_with_units_spec l sub :
  JsString.starts_with_units l sub = true <-> exists post, l = sub ++ post.
Proof.
  revert l. induction sub as [|a sub IH]; intros l; cbn.
  - split; [eauto | intros _; destruct l; reflexivity].
  - destruct l as [|b l]; cbn.
    + split; [discriminate | intros [post [=]]].
    + rewrite andb_true_iff, bool_decide_eq_true, IH. split.
      * intros [-> [post ->]]. eauto.
      * intros [post [= -> ->]]. eauto.
Qed.

Lemma includes_units_spec l sub :
  JsString.includes_units l sub = true <-> exists pre post, l = pre ++ sub ++ post.
Proof.
  induction l as [|c l IH].
  - cbn [JsString.includes_units]. rewrite orb_false_r, starts_with_units_spec. split.
    + intros [post H]. exists [], post. exact H.
    + intros ([|? ?] & post & H); [eauto | discriminate].
  - cbn [JsString.includes_units]. rewrite orb_true_iff, IH, starts_with_units_spec. split.
    + intros [[post H] | (pre & post & H)].
      * exists [], post. exact H.
      * exists (c :: pre), post. rewrite H. reflexivity.
    + intros ([|c' pre] & post & H).
      * left. eauto.
      * right. injection H as -> ->. eauto.
Qed.

Lemma includes_spec s sub : JsString.includes s sub = true <-> contains s sub.
Proof. apply includes_units_spec. Qed.


Global Instance contains_dec s sub : Decision (contains s sub).
Proof.
  refine (cast_if (decide (JsString.includes s sub = true))); abstract (by rewrite <- includes_spec).
Defined.

Global Instance tip_matches_dec lower categoryValue searchTerm tip :
  Decision (tip_matches lower categoryValue searchTerm tip).
Proof. unfold tip_matches, contains_ci. apply _. Defined.

Lemma List_filter_decide {A} (P : A -> Prop) `{!forall x, Decision (P x)} (p : A -> bool) l :
  (forall x, p x = true <-> P x) -> List.filter p l = filter P l.
Proof.
  intros Hp. induction l as [|x l IH]; [reflexivity|].
  rewrite filter_cons. cbn [List.filter]. rewrite IH.
  destruct (decide (P x)) as [HP | HP].
  - apply Hp in HP. rewrite HP. reflexivity.
  - destruct (p x) eqn:E; [apply Hp in E; contradiction | reflexivity].
Qed.

Lemma length_zero_match {A B} (l : list A) (x y : B) :
  (if bool_decide (length l = 0%nat) then x else y) = match l with [] => x | _ => y end.
Proof. destruct l; reflexivity. Qed.

(** ** The renderers *)






(** C7. [renderFavorites] lists exactly the favorites of type video, in the
    order of the array, or the placeholder when there is none; of one quote,
    one tip and one video it lists the video alone. *)
Theorem renderFavorites_lists_videos (w : world) :
  let shown := filter (fun fav => Fav.type fav = "video") (favorites w) in
  (renderFavorites w).1 = Ret tt
  /\ favoritesList (els (renderFavorites w).2)
     = match favoritesList (els w) with
       | None => None
       | Some _ => Some (Some match shown with
                              | [] => NoFavoriteVideos
                              | _ => FavoriteCards shown
                              end)
       end
  /\ forall q t v : Fav.t,
       Fav.type q = "quote" -> Fav.type t = "tip" -> Fav.type v = "video" ->
       favorites w ≡ₚ [q; t; v] -> shown = [v].
Proof.
  intros shown. split; [apply total_unit, renderFavorites_total|]. split.
  - unfold renderFavorites. run.
    destruct (favoritesList (els w)) as [old|] eqn:E; cbn; [|exact E].
    do 2 f_equal. rewrite length_zero_match, map_id.
    rewrite (List_filter_decide (fun fav => Fav.type fav = "video")).
    + reflexivity.
    + intros fav. apply bool_decide_eq_true.
  - intros q t v Hq Ht Hv Hperm. subst shown.
    apply Permutation_singleton_r. rewrite Hperm.
    rewrite !filter_cons, filter_nil, Hq, Ht, Hv. reflexivity.
Qed.

Lemma renderFavorites_lists_videos_witness :
  filter (fun fav => Fav.type fav = "video") (favorites favorites_world) = [video_fav].
Proof.
  apply (proj2 (proj2 (renderFavorites_lists_videos favorites_world)) quote_fav tip_fav);
    reflexivity.
Defined.

(** ** The preference store *)

(** C8. [storage.get] never throws and leaves the module variables alone: it
    returns the parsed value when the item can be read and parses, and the
    caller's default when the item is absent, cannot be read, or does not
    parse.  The default is the second argument, and the empty array when that
    argument is left out or is [undefined].  [storage.set] never throws and
    leaves the module variables alone: it stores the serialized value when the
    write is accepted and changes nothing in the store when it is refused. *)
Theorem storage_contract (key : string) (d : option value) (v : value) (w : world) :
  JSON_parse (env w) "" = None ->
  let defaultValue := match d with
                      | None | Some VUndef => VArr []
                      | Some d => d
                      end in
  (storage_get key d w).1
  = Ret match (if storage_readable (env w) then localStorage w !! key else None) with
        | Some data => default defaultValue (JSON_parse (env w) data)
        | None => defaultValue
        end
  /\ in_memory (storage_get key d w).2 = in_memory w
  /\ localStorage (storage_get key d w).2 = localStorage w
  /\ (storage_set key v w).1 = Ret tt
  /\ in_memory (storage_set key v w).2 = in_memory w
  /\ localStorage (storage_set key v w).2
     = if (storage_readable (env w)
           && storage_accepts (env w) (localStorage w) key (JSON_stringify (env w) v))%bool
       then <[key := JSON_stringify (env w) v]> (localStorage w)
       else localStorage w.
Proof.
  intros Hempty defaultValue.
  unfold storage_get, storage_set, localStorage_getItem, localStorage_setItem.
  change (default_parameter (VArr []) d) with defaultValue.
  generalize defaultValue. clear defaultValue. intros defaultValue. run.
  destruct (storage_readable (env w)); cbn; [|repeat split].
  repeat split.
  - destruct (localStorage w !! key) as [[|c data]|]; cbn; [rewrite Hempty | |]; try reflexivity.
    destruct (JSON_parse (env w) (String c data)); reflexivity.
  - destruct (localStorage w !! key) as [[|c data]|]; cbn; try reflexivity.
    destruct (JSON_parse (env w) (String c data)); reflexivity.
  - destruct (localStorage w !! key) as [[|c data]|]; cbn; try reflexivity.
    destruct (JSON_parse (env w) (String c data)); reflexivity.
  - destruct (storage_accepts _ _ _ _); reflexivity.
  - destruct (storage_accepts _ _ _ _); reflexivity.
  - destruct (storage_accepts _ _ _ _); reflexivity.
Qed.

Lemma storage_contract_witness :
  (storage_get keys.THEME (Some (VStr "light"))
     (set_localStorage {[ keys.THEME := "true" ]} (fresh_world (offline_env "")))).1
  = Ret (VBool true)
  /\ (storage_get keys.THEME (Some VUndef) (fresh_world (offline_env ""))).1 = Ret (VArr []).
Proof.
  split.
  - exact (proj1 (storage_contract keys.THEME (Some (VStr "light")) VNull
                    (set_localStorage {[ keys.THEME := "true" ]}
                       (fresh_world (offline_env ""))) eq_refl)).
  - exact (proj1 (storage_contract keys.THEME (Some VUndef) VNull
                    (fresh_world (offline_env "")) eq_refl)).
Defined.

(** ** Frames of the larger steps *)

Lemma apiUrl_remote key query url : apiUrl key query = Some url -> url <> LOCAL_TIPS_URL.
Proof.
  unfold apiUrl. destruct (JsString.encodeURIComponent query); cbn; [|discriminate].
  intros [= <-]. discriminate.
Qed.

Global Instance favorites_blind : ViewBlind favorites.
Proof. split; reflexivity. Qed.

Global Instance localTipsData_blind : ViewBlind localTipsData.
Proof. split; reflexivity. Qed.

Global Instance tips_requests_blind : ViewBlind tips_requests.
Proof.
  split; try reflexivity.
  intros url w Hurl. unfold tips_requests. cbn.
  rewrite filter_app, filter_cons_False, filter_nil, app_nil_r by assumption. reflexivity.
Qed.

Section Frames.
Context {A : Type} (f : world -> A) `{!ViewBlind f}.

Lemma fetchQuote_frame : preserves f fetchQuote.
Proof.
  unfold fetchQuote. frame.
  apply preserves_fetch. intros w. apply blind_remote. discriminate.
Qed.

Lemma fetchVideos_frame query : preserves f (fetchVideos query).
Proof.
  intros w. unfold fetchVideos.
  rewrite (bind_run _ _ w (YOUTUBE_API_KEY (env w))) by reflexivity. cbn [read snd].
  destruct (_ || _)%bool.
  { as_frame. frame. }
  destruct (apiUrl _ _) as [url|] eqn:Hurl; [|reflexivity].
  rewrite (bind_run _ _ w url) by reflexivity. cbn [ret snd].
  as_frame. frame.
  apply preserves_fetch. intros w'. apply blind_remote. eapply apiUrl_remote, Hurl.
Qed.

Lemma storage_set_frame key v : preserves f (storage_set key v).
Proof. unfold storage_set. frame. Qed.

Lemma loadInitialData_quote_frame : preserves f loadInitialData_quote.
Proof.
  unfold loadInitialData_quote. frame;
    first [apply fetchQuote_frame | apply renderQuote_frame; frame_side].
Qed.

Lemma loadInitialData_videos_frame : preserves f loadInitialData_videos.
Proof.
  unfold loadInitialData_videos, loadInitialData_videos_try. frame;
    first [apply fetchVideos_frame | apply renderVideos_frame; frame_side].
Qed.

End Frames.

(** ** Navigation and [loadInitialData] *)

(** A click on the button of the view that is already current does nothing. *)
Lemma handleNavigation_same_view reload i b w :
  nav_buttons w !! i = Some b -> page b = Some (currentView w) ->
  handleNavigation_with reload (Some i) w = (Ret tt, w).
Proof.
  intros Hi Hpage. unfold handleNavigation_with. run. cbn.
  rewrite Hi. cbn. rewrite Hpage.
  destruct (currentView w) as [|c v]; [reflexivity|].
  rewrite bool_decide_eq_true_2 by reflexivity. reflexivity.
Qed.

(** So the handler that step 5 calls never reaches its refresh. *)
Lemma loadInitialData_view_nav reload w :
  loadInitialData_view (handleNavigation_with reload) w
  = loadInitialData_view (fun _ => ret tt) w.
Proof.
  unfold loadInitialData_view. run.
  set (w1 := match categoryFilter (els w) with
             | Some _ => set_els (set_categoryFilter (Some (currentCategory w)) (els w)) w
             | None => w
             end).
  destruct (list_find _ (nav_buttons w1)) as [[i b]|] eqn:Hfind; [|reflexivity].
  apply list_find_Some in Hfind as (Hi & Hpage & _).
  apply (handleNavigation_same_view reload i b w1 Hi Hpage).
Qed.

Lemma total_try_catch_body {B} (body : M B) handler : total body -> total (try_catch body handler).
Proof.
  intros Hb w. destruct (Hb w) as [b Hw]. rewrite (try_catch_run _ _ _ _ Hw). eauto.
Qed.

Lemma total_ret {B} (b : B) : total (ret b).
Proof. intros w. eauto. Qed.

Lemma total_read {B} (g : world -> B) : total (read g).
Proof. intros w. cbn. eauto. Qed.

Lemma total_modify g : total (modify g).
Proof. intros w. cbn. eauto. Qed.

Lemma total_console_log line : total (console_log line).
Proof. intros w. cbn. eauto. Qed.

Lemma loadInitialData_view_total reload : total (loadInitialData_view (handleNavigation_with reload)).
Proof.
  intros w. rewrite loadInitialData_view_nav. unfold loadInitialData_view. run.
  destruct (list_find _ _) as [[i b]|]; cbn; [eauto|].
  unfold classList_hidden. cbn. destruct (sections _ homeSection); cbn; eauto.
Qed.

Lemma loadInitialData_tips_total : total loadInitialData_tips.
Proof.
  intros w. unfold loadInitialData_tips. run.
  destruct (bool_decide _); cbn; [|eauto].
  destruct (local_files _ _ _) as [|r]; cbn; [eauto|].
  destruct (json r); cbn; eauto.
Qed.

Lemma loadInitialData_quote_total : total loadInitialData_quote.
Proof.
  unfold loadInitialData_quote. apply total_try_catch_body, total_bind.
  - apply fetchQuote_total.
  - intros quoteString. apply renderQuote_total.
Qed.

Lemma loadInitialData_videos_total : total loadInitialData_videos.
Proof.
  intros w. unfold loadInitialData_videos, loadInitialData_videos_try, try_catch.
  rewrite (bind_run _ _ w (currentCategory w)) by reflexivity. cbn [read snd].
  set (q := if bool_decide (currentCategory w = "all") then "daily wellness"
            else currentCategory w).
  assert (Hhandler : total (let* _ := console_log critical_video_error in
                            renderVideos fallbackVideos)).
  { apply total_bind; [apply total_console_log | intros _; apply renderVideos_fallback_total]. }
  destruct (fetchVideos_outcome (Some q) w) as [(l & Hl & _) | (Hthrow & Hw & _)].
  - rewrite (bind_run _ _ _ _ Hl).
    destruct (renderVideos_outcome l (fetchVideos (Some q) w).2) as [Hr | (e & _ & Hr)].
    + destruct (renderVideos l _) as [o w']. cbn in Hr. subst o. eauto.
    + rewrite Hr. apply Hhandler.
  - unfold bind at 1. destruct (fetchVideos (Some q) w) as [o w']. cbn in Hthrow, Hw. subst.
    apply Hhandler.
Qed.

Section LoadFrames.
Context {A : Type} (f : world -> A) `{!ViewBlind f}.

Lemma loadInitialData_view_frame reload :
  preserves f (loadInitialData_view (handleNavigation_with reload)).
Proof.
  intros w. rewrite loadInitialData_view_nav. as_frame.
  unfold loadInitialData_view. frame.
  - match goal with |- context [categoryFilter ?e] => destruct (categoryFilter e) end;
      frame_side.
  - intros w'. unfold classList_hidden.
    destruct (sections (els w') homeSection); cbn; frame_side.
Qed.

(** After step 1 the rest of [loadInitialData] completes and leaves [f] alone. *)
Lemma loadInitialData_after_tips n fullFetch w :
  (loadInitialData_fuel (S n) fullFetch w).1 = Ret tt
  /\ f (loadInitialData_fuel (S n) fullFetch w).2 = f (loadInitialData_tips w).2.
Proof.
  cbn [loadInitialData_fuel].
  rewrite (bind_run _ _ w tt) by apply total_unit, loadInitialData_tips_total.
  set (w1 := (loadInitialData_tips w).2). split.
  - apply total_unit. apply total_bind.
    { destruct fullFetch; [|apply total_ret].
      apply total_bind; [apply loadInitialData_quote_total|].
      intros _. apply loadInitialData_videos_total. }
    intros _. apply total_bind; [apply total_read|].
    intros tips. apply total_bind; [apply renderTips_total|].
    intros _. apply loadInitialData_view_total.
  - as_frame. frame.
    + apply loadInitialData_quote_frame; assumption.
    + apply loadInitialData_videos_frame; assumption.
    + apply renderTips_frame. frame_side.
    + apply loadInitialData_view_frame.
Qed.

End LoadFrames.

Lemma bind_ext {B C} (c : M B) (k1 k2 : B -> M C) w :
  (forall b w', k1 b w' = k2 b w') -> bind c k1 w = bind c k2 w.
Proof.
  intros H. unfold bind. destruct (c w) as [[b| |] w']; [apply H | reflexivity..].
Qed.

(** One unit of fuel is enough: more fuel changes nothing. *)
Lemma loadInitialData_fuel_enough n fullFetch w :
  loadInitialData_fuel (S n) fullFetch w = loadInitialData fullFetch w.
Proof.
  unfold loadInitialData. cbn [loadInitialData_fuel].
  apply bind_ext. intros _ w1. apply bind_ext. intros _ w2.
  apply bind_ext. intros tips w3. apply bind_ext. intros _ w4.
  rewrite !loadInitialData_view_nav. reflexivity.
Qed.

Lemma loadInitialData_total fullFetch : total (loadInitialData fullFetch).
Proof.
  intros w. exists tt. apply (loadInitialData_after_tips favorites 0 fullFetch w).
Qed.

(** ** The favorites toggle *)

Lemma findIndex_lower {A} (p : A -> bool) l : (-1 <= findIndex p l)%Z.
Proof.
  induction l as [|x l IH]; cbn; [lia|].
  destruct (p x); [lia|]. destruct (Z.eqb_spec (findIndex p l) (-1)); lia.
Qed.

Lemma findIndex_absent {A} (p : A -> bool) l :
  findIndex p l = (-1)%Z <-> Forall (fun x => p x = false) l.
Proof.
  induction l as [|x l IH]; cbn.
  - split; [constructor | reflexivity].
  - rewrite Forall_cons. destruct (p x).
    + split; [lia | intros [[=] _]].
    + pose proof (findIndex_lower p l).
      destruct (Z.eqb_spec (findIndex p l) (-1)); split; intros; try tauto; lia.
Qed.

Lemma findIndex_found {A} (p : A -> bool) l :
  findIndex p l <> (-1)%Z ->
  exists l1 x l2,
    l = l1 ++ x :: l2 /\ p x = true /\ Forall (fun y => p y = false) l1
    /\ splice1 (findIndex p l) l = l1 ++ l2.
Proof.
  induction l as [|x l IH]; cbn; [congruence|].
  destruct (p x) eqn:Hx.
  - intros _. exists [], x, l. repeat split; auto.
  - pose proof (findIndex_lower p l).
    destruct (Z.eqb_spec (findIndex p l) (-1)); [congruence|]. intros _.
    destruct (IH n) as (l1 & y & l2 & -> & Hy & Hl1 & Hsplice).
    exists (x :: l1), y, l2. repeat split; auto.
    unfold splice1 in *.
    replace (Z.to_nat (findIndex p (l1 ++ y :: l2) + 1))
      with (S (Z.to_nat (findIndex p (l1 ++ y :: l2)))) by lia.
    cbn. f_equal. exact Hsplice.
Qed.

Lemma newItem_id button tips : Fav.id (newItem button tips) = Button.id button.
Proof. unfold newItem. repeat case_bool_decide; reflexivity. Qed.

Lemma id_absent (id : string) (l : list Fav.t) :
  Forall (fun fav => bool_decide (Fav.id fav = id) = false) l <-> id ∉ (Fav.id <$> l).
Proof.
  rewrite list_elem_of_fmap, Forall_forall. split.
  - intros H (fav & -> & Hin). specialize (H fav Hin).
    apply bool_decide_eq_false in H. congruence.
  - intros H fav Hin. apply bool_decide_eq_false. intros <-. apply H. eauto.
Qed.

Lemma toggled_step button tips favs :
  NoDup (Fav.id <$> favs) ->
  toggle_step button tips favs (toggled button tips favs)
  /\ NoDup (Fav.id <$> toggled button tips favs).
Proof.
  intros Hnd. unfold toggled, toggle_step.
  destruct (Z.eqb_spec (findIndex (fun fav => bool_decide (Fav.id fav = Button.id button)) favs)
              (-1)) as [Habs | Hfound].
  - apply findIndex_absent, id_absent in Habs. split.
    + left. auto using newItem_id.
    + rewrite fmap_app. apply NoDup_app. repeat split; [assumption | | apply NoDup_singleton].
      intros x Hx. cbn. rewrite newItem_id. intros ->%list_elem_of_singleton. contradiction.
  - destruct (findIndex_found _ _ Hfound) as (l1 & e & l2 & -> & He & Hl1 & ->).
    apply bool_decide_eq_true in He.
    rewrite fmap_app, fmap_cons in Hnd.
    apply NoDup_app in Hnd as (Hnd1 & Hdisj & Hnd2).
    apply NoDup_cons in Hnd2 as (He2 & Hnd2).
    assert (Hnd' : NoDup (Fav.id <$> (l1 ++ l2))).
    { rewrite fmap_app. apply NoDup_app. repeat split; [assumption | | assumption].
      intros x Hx Hx2. apply (Hdisj x Hx). right. exact Hx2. }
    split; [|exact Hnd'].
    right. exists l1, e, l2. repeat split; auto.
    rewrite fmap_app, elem_of_app. rewrite <- He. intros [H | H]; [|contradiction].
    apply (Hdisj _ H). left.
Qed.

(** One toggle leaves the entries with another id where they are. *)
Lemma toggled_others button tips favs :
  filter (fun fav => Fav.id fav <> Button.id button) (toggled button tips favs)
  = filter (fun fav => Fav.id fav <> Button.id button) favs.
Proof.
  unfold toggled.
  destruct (Z.eqb_spec (findIndex (fun fav => bool_decide (Fav.id fav = Button.id button)) favs)
              (-1)) as [Habs | Hfound].
  - rewrite filter_app, filter_cons_False, filter_nil, app_nil_r; [reflexivity|].
    rewrite newItem_id. auto.
  - destruct (findIndex_found _ _ Hfound) as (l1 & e & l2 & -> & He & Hl1 & ->).
    apply bool_decide_eq_true in He.
    rewrite !filter_app, filter_cons_False; auto.
Qed.

Lemma toggled_twice_absent b1 b2 tips1 tips2 favs :
  Button.id b1 = Button.id b2 ->
  Button.id b1 ∉ (Fav.id <$> favs) ->
  toggled b2 tips2 (toggled b1 tips1 favs) = favs.
Proof.
  intros Hid Habs. apply id_absent in Habs.
  unfold toggled at 2. rewrite (proj2 (findIndex_absent _ _) Habs). cbn.
  unfold toggled.
  destruct (Z.eqb_spec
              (findIndex (fun fav => bool_decide (Fav.id fav = Button.id b2))
                 (favs ++ [newItem b1 tips1])) (-1)) as [Habs2 | Hfound].
  - apply findIndex_absent, Forall_app in Habs2 as [_ H].
    apply Forall_singleton, bool_decide_eq_false in H. rewrite newItem_id in H. congruence.
  - destruct (findIndex_found _ _ Hfound) as (l1 & e & l2 & Heq & He & Hl1 & ->).
    rewrite <- Hid in *.
    assert (l2 = [] /\ l1 = favs) as [-> ->].
    { destruct l2 as [|y l2 _] using rev_ind.
      - apply app_inj_tail in Heq as [-> _]. auto.
      - rewrite app_comm_cons, app_assoc in Heq. apply app_inj_tail in Heq as [-> _].
        apply Forall_app in Habs as [_ Habs]. apply Forall_cons in Habs as [Habs _].
        congruence. }
    apply app_nil_r.
Qed.

Lemma storage_set_total key v : total (storage_set key v).
Proof.
  intros w. unfold storage_set, localStorage_setItem. run.
  destruct (storage_readable (env w)); cbn; [|eauto].
  destruct (storage_accepts _ _ _ _); cbn; eauto.
Qed.

Lemma loadInitialData_tips_favorites : preserves favorites loadInitialData_tips.
Proof.
  unfold loadInitialData_tips. frame. apply preserves_fetch. reflexivity.
Qed.

Lemma loadInitialData_favorites fullFetch : preserves favorites (loadInitialData fullFetch).
Proof.
  intros w. unfold loadInitialData.
  rewrite (proj2 (loadInitialData_after_tips favorites 0 fullFetch w)).
  apply loadInitialData_tips_favorites.
Qed.

(** A handled click completes, and the favorites afterwards are those the
    push or the splice left: nothing later in the handler touches them. *)
Lemma handleToggleFavorite_run button w :
  (handleToggleFavorite (Some button) w).1 = Ret tt
  /\ favorites (handleToggleFavorite (Some button) w).2
     = toggled button (localTipsData w) (favorites w).
Proof.
  unfold handleToggleFavorite.
  rewrite (bind_run _ _ w (favorites w)) by reflexivity. cbn [read snd].
  set (index := findIndex _ (favorites w)).
  set (w1 := set_favorites (toggled button (localTipsData w) (favorites w)) w).
  assert (Hstep : forall k : unit -> M unit,
             bind (if (index =? -1)%Z
                   then modify (fun w => set_favorites
                                           (favorites w ++ [newItem button (localTipsData w)]) w)
                   else modify (fun w => set_favorites (splice1 index (favorites w)) w)) k w
             = k tt w1).
  { intros k. unfold w1, toggled. fold index. destruct (index =? -1)%Z; reflexivity. }
  rewrite Hstep. clear Hstep.
  change (toggled button (localTipsData w) (favorites w)) with (favorites w1).
  generalize w1. clear. intros w. split.
  - apply total_unit. apply total_bind; [apply total_read|]. intros favs'.
    apply total_bind; [apply storage_set_total|]. intros _.
    apply total_bind; [apply total_read|]. intros current.
    destruct (bool_decide _); [apply renderFavorites_total|].
    intros w'. destruct (loadInitialData_total false w') as [[] H].
    rewrite (detached_run _ _ _ H). eauto.
  - as_frame. frame.
    + apply storage_set_frame, _.
    + apply renderFavorites_frame. reflexivity.
    + apply loadInitialData_favorites.
Qed.

Lemma toggles_snoc events event w :
  toggles (events ++ [event]) w = (handleToggleFavorite event (toggles events w)).2.
Proof. unfold toggles. rewrite fold_left_app. reflexivity. Qed.

(** C1. Starting from favorites with pairwise distinct ids, the ids stay
    pairwise distinct after every sequence of toggles, and each further toggle
    either appends the new entry (no entry has the id) or removes the entry
    with the id. *)
Theorem favorites_ids_stay_distinct (events : list (option Button.t)) (w : world) :
  NoDup (Fav.id <$> favorites w) ->
  NoDup (Fav.id <$> favorites (toggles events w))
  /\ forall button : Button.t,
       toggle_step button (localTipsData (toggles events w))
         (favorites (toggles events w))
         (favorites (handleToggleFavorite (Some button) (toggles events w)).2).
Proof.
  intros Hnd.
  assert (Hinv : NoDup (Fav.id <$> favorites (toggles events w))).
  { induction events as [|event events IH] using rev_ind; [exact Hnd|].
    rewrite toggles_snoc. destruct event as [button|]; [|exact IH].
    rewrite (proj2 (handleToggleFavorite_run button _)).
    apply toggled_step, IH. }
  split; [exact Hinv|].
  intros button. rewrite (proj2 (handleToggleFavorite_run button _)).
  apply toggled_step, Hinv.
Qed.

(** C2. Two toggles in a row for the same id leave every entry with another
    id in place, in the same order; when the id was not a favorite the
    favorites are back to what they were. *)
Theorem toggle_twice_keeps_others (b1 b2 : Button.t) (w : world) :
  Button.id b1 = Button.id b2 ->
  let w2 := (handleToggleFavorite (Some b2) (handleToggleFavorite (Some b1) w).2).2 in
  filter (fun fav => Fav.id fav <> Button.id b1) (favorites w2)
  = filter (fun fav => Fav.id fav <> Button.id b1) (favorites w)
  /\ (Button.id b1 ∉ (Fav.id <$> favorites w) -> favorites w2 = favorites w).
Proof.
  intros Hid w2. subst w2.
  rewrite (proj2 (handleToggleFavorite_run b2 _)), (proj2 (handleToggleFavorite_run b1 w)).
  split.
  - rewrite Hid, toggled_others, <- Hid, toggled_others. reflexivity.
  - intros Habs. apply toggled_twice_absent; assumption.
Qed.

Lemma favorites_ids_stay_distinct_witness :
  NoDup (Fav.id <$> favorites (toggles [Some video_button; None; Some tip_button] home_world)).
Proof.
  apply (favorites_ids_stay_distinct [Some video_button; None; Some tip_button] home_world).
  apply (bool_decide_unpack _). vm_compute. exact I.
Defined.

Lemma toggle_twice_keeps_others_witness :
  filter (fun fav => Fav.id fav <> Button.id video_button)
    (favorites (handleToggleFavorite (Some video_button)
                  (handleToggleFavorite (Some video_button) home_world).2).2)
  = filter (fun fav => Fav.id fav <> Button.id video_button) (favorites home_world).
Proof.
  apply (toggle_twice_keeps_others video_button video_button home_world). reflexivity.
Defined.

(** ** Loading the tips *)






(** Step 1 is its request followed, once the response is there, by the
    assignment. *)
Lemma loadInitialData_tips_split w :
  loadInitialData_tips w
  = (let* settled := loadInitialData_tips_request in loadInitialData_tips_settle settled) w.
Proof.
  unfold loadInitialData_tips, loadInitialData_tips_request, loadInitialData_tips_settle. run.
  destruct (bool_decide _); cbn; [|reflexivity].
  destruct (local_files _ _ _) as [|r]; cbn; [reflexivity|].
  destruct (json r); reflexivity.
Qed.




(** * Further properties of the code *)

(** ** The preference store, composed *)

Lemma storage_set_store key v w :
  localStorage (storage_set key v w).2
  = (if (storage_readable (env w)
         && storage_accepts (env w) (localStorage w) key (JSON_stringify (env w) v))%bool
     then <[key := JSON_stringify (env w) v]> (localStorage w)
     else localStorage w)
  /\ env (storage_set key v w).2 = env w.
Proof.
  unfold storage_set, localStorage_setItem. run.
  destruct (storage_readable (env w)); cbn; [|auto].
  destruct (storage_accepts _ _ _ _); cbn; auto.
Qed.

Lemma storage_get_value key d w :
  (storage_get key d w).1
  = Ret match (if storage_readable (env w) then localStorage w !! key else None) with
        | Some (String c data) =>
            default (default_parameter (VArr []) d) (JSON_parse (env w) (String c data))
        | _ => default_parameter (VArr []) d
        end.
Proof.
  unfold storage_get, localStorage_getItem. run.
  destruct (storage_readable (env w)); cbn; [|reflexivity].
  destruct (localStorage w !! key) as [[|c data]|]; cbn; try reflexivity.
  destruct (JSON_parse (env w) (String c data)); reflexivity.
Qed.

(** X1. What [storage.set] wrote, [storage.get] reads back: when the store
    accepts the write and the serialized text is not empty and parses back to
    the value, a get of the same key returns the value, whatever the default. *)
Theorem storage_set_get_roundtrip (key : string) (v : value) (d : option value) (w : world) :
  storage_readable (env w) = true ->
  storage_accepts (env w) (localStorage w) key (JSON_stringify (env w) v) = true ->
  JSON_stringify (env w) v <> "" ->
  JSON_parse (env w) (JSON_stringify (env w) v) = Some v ->
  (storage_get key d (storage_set key v w).2).1 = Ret v.
Proof.
  intros Hr Ha Hne Hp.
  destruct (storage_set_store key v w) as [Hs He].
  rewrite storage_get_value, Hs, He, Hr, Ha. cbn. rewrite lookup_insert_eq.
  destruct (JSON_stringify (env w) v) as [|c data] eqn:E; [contradiction|].
  rewrite Hp. reflexivity.
Qed.

Lemma storage_set_get_roundtrip_witness :
  (storage_get keys.THEME None
     (storage_set keys.THEME (VBool true) (fresh_world (offline_env ""))).2).1
  = Ret (VBool true).
Proof.
  apply (storage_set_get_roundtrip keys.THEME (VBool true) None
           (fresh_world (offline_env ""))); try reflexivity.
  discriminate.
Defined.

(** X2. A [storage.set] under one key leaves what [storage.get] returns for
    every other key as it was, whether the write succeeds or not. *)
Theorem storage_set_other_key (key key' : string) (v : value) (d : option value) (w : world) :
  key <> key' ->
  (storage_get key' d (storage_set key v w).2).1 = (storage_get key' d w).1.
Proof.
  intros Hne. destruct (storage_set_store key v w) as [Hs He].
  rewrite !storage_get_value, Hs, He.
  destruct (_ && _)%bool; [|reflexivity].
  rewrite lookup_insert_ne by assumption. reflexivity.
Qed.

Lemma storage_set_other_key_witness :
  (storage_get keys.LAST_CATEGORY None
     (storage_set keys.THEME (VBool true) (fresh_world (offline_env ""))).2).1
  = (storage_get keys.LAST_CATEGORY None (fresh_world (offline_env ""))).1.
Proof.
  apply (storage_set_other_key keys.THEME keys.LAST_CATEGORY (VBool true) None
           (fresh_world (offline_env ""))).
  discriminate.
Defined.

(** ** The theme *)

(** X3. A click on the theme toggle flips the class and stores the name of the
    new theme; when the store accepts the write and the text parses back, a
    page that starts light shows the new theme after a restart, and when the
    store refuses it the restart shows what it would have shown before. *)
Theorem theme_toggle_persists (dark start : bool) (w : world) :
  let newTheme := if dark then "light" else "dark" in
  let data := JSON_stringify (env w) (VStr newTheme) in
  (handleThemeToggle dark w).1 = Ret (negb dark)
  /\ (storage_readable (env w) = true ->
      storage_accepts (env w) (localStorage w) keys.THEME data = true ->
      data <> "" -> JSON_parse (env w) data = Some (VStr newTheme) ->
      (applySavedTheme false (handleThemeToggle dark w).2).1 = Ret (negb dark))
  /\ (storage_accepts (env w) (localStorage w) keys.THEME data = false ->
      (applySavedTheme start (handleThemeToggle dark w).2).1 = (applySavedTheme start w).1).
Proof.
  intros newTheme data.
  assert (Hrun : handleThemeToggle dark w
                 = (Ret (negb dark), (storage_set keys.THEME (VStr newTheme) w).2)).
  { unfold handleThemeToggle. fold newTheme.
    rewrite (bind_run _ _ w tt) by apply total_unit, storage_set_total. reflexivity. }
  rewrite Hrun. cbn [fst snd].
  destruct (storage_set_store keys.THEME (VStr newTheme) w) as [Hs He]. fold data in Hs.
  assert (Hshow : forall d w', (applySavedTheme d w').1
             = match (storage_get keys.THEME None w').1 with
               | Ret theme => Ret (if strict_eq_string "dark" theme then true else d)
               | Throw e => Throw e
               | OutOfFuel => OutOfFuel
               end).
  { intros d w'. unfold applySavedTheme, bind.
    destruct (storage_get keys.THEME None w') as [[theme| |] w'']; cbn; try reflexivity.
    destruct (strict_eq_string "dark" theme); reflexivity. }
  split; [reflexivity|]. split.
  - intros Hr Ha Hne Hp.
    rewrite Hshow, storage_get_value, Hs, He, Hr, Ha. cbn. rewrite lookup_insert_eq.
    destruct data as [|c rest] eqn:E; [contradiction|]. rewrite Hp. cbn.
    subst newTheme. destruct dark; reflexivity.
  - intros Ha. rewrite !Hshow, !storage_get_value, Hs, He, Ha, andb_false_r. reflexivity.
Qed.

Lemma theme_toggle_persists_witness :
  (applySavedTheme false (handleThemeToggle false (fresh_world theme_env)).2).1 = Ret true.
Proof.
  apply (proj1 (proj2 (theme_toggle_persists false false (fresh_world theme_env))));
    try reflexivity.
  discriminate.
Defined.

(** ** What the steps of [loadInitialData] touch *)

Ltac frame_all :=
  repeat first [ frame_step | apply preserves_fetch; intros; reflexivity ].

Lemma fetchQuote_steady : preserves steady fetchQuote.
Proof. unfold fetchQuote. frame_all. Qed.

Lemma fetchVideos_steady query : preserves steady (fetchVideos query).
Proof. unfold fetchVideos. frame_all. Qed.

Lemma renderQuote_steady quote : preserves steady (renderQuote quote).
Proof. unfold renderQuote. frame_all. Qed.

Lemma renderTips_steady tips : preserves steady (renderTips tips).
Proof. unfold renderTips. frame_all. Qed.

Lemma renderVideos_steady videos : preserves steady (renderVideos videos).
Proof. unfold renderVideos. frame_all. Qed.

Lemma loadInitialData_tips_steady : preserves steady loadInitialData_tips.
Proof. unfold loadInitialData_tips. frame_all. Qed.

Lemma loadInitialData_quote_steady : preserves steady loadInitialData_quote.
Proof.
  unfold loadInitialData_quote. frame_all;
    first [apply fetchQuote_steady | apply renderQuote_steady].
Qed.

Lemma loadInitialData_videos_steady : preserves steady loadInitialData_videos.
Proof.
  unfold loadInitialData_videos, loadInitialData_videos_try. frame_all;
    first [apply fetchVideos_steady | apply renderVideos_steady].
Qed.

Lemma loadInitialData_unfold fullFetch w :
  loadInitialData fullFetch w = loadInitialData_view (fun _ => ret tt) (loaded_world fullFetch w).
Proof.
  unfold loadInitialData, loaded_world. cbn [loadInitialData_fuel].
  rewrite (bind_run _ _ w tt) by apply total_unit, loadInitialData_tips_total.
  set (w1 := (loadInitialData_tips w).2).
  destruct fullFetch.
  - rewrite (bind_run _ _ w1 tt).
    2:{ rewrite (bind_run _ _ w1 tt) by apply total_unit, loadInitialData_quote_total.
        apply total_unit, loadInitialData_videos_total. }
    rewrite (bind_run _ _ w1 tt) by apply total_unit, loadInitialData_quote_total.
    set (w2 := (loadInitialData_videos _).2).
    rewrite (bind_run _ _ w2 (localTipsData w2)) by reflexivity. cbn [read snd].
    rewrite (bind_run _ _ w2 tt) by apply total_unit, renderTips_total.
    apply loadInitialData_view_nav.
  - rewrite (bind_run _ _ w1 tt) by reflexivity. cbn [ret snd].
    rewrite (bind_run _ _ w1 (localTipsData w1)) by reflexivity. cbn [read snd].
    rewrite (bind_run _ _ w1 tt) by apply total_unit, renderTips_total.
    apply loadInitialData_view_nav.
Qed.

Lemma loaded_world_steady fullFetch w : steady (loaded_world fullFetch w) = steady w.
Proof.
  unfold loaded_world. rewrite renderTips_steady.
  destruct fullFetch.
  - rewrite loadInitialData_videos_steady, loadInitialData_quote_steady.
    apply loadInitialData_tips_steady.
  - apply loadInitialData_tips_steady.
Qed.

Lemma loadInitialData_view_run w :
  loadInitialData_view (fun _ => ret tt) w = (Ret tt, viewed_world w).
Proof.
  unfold loadInitialData_view, viewed_world. run.
  destruct (categoryFilter (els w)); cbn;
    (destruct (list_find _ (nav_buttons w)) as [[i b]|]; cbn; [reflexivity|]);
    unfold classList_hidden; cbn;
    destruct (sections (els w) homeSection); reflexivity.
Qed.

Lemma loadInitialData_run fullFetch w :
  loadInitialData fullFetch w = (Ret tt, viewed_world (loaded_world fullFetch w)).
Proof. rewrite loadInitialData_unfold. apply loadInitialData_view_run. Qed.

Lemma viewed_world_settled w : settled (viewed_world w) = settled w /\ lists (viewed_world w) = lists w.
Proof.
  unfold viewed_world.
  destruct (categoryFilter (els w)); cbn;
    (destruct (list_find _ (nav_buttons w)); [split; reflexivity|]);
    cbn; destruct (sections (els w) homeSection); split; reflexivity.
Qed.

(** ** The requests a refresh sends *)

Lemma renderQuote_requests quote : preserves requests (renderQuote quote).
Proof. unfold renderQuote. frame_all. Qed.

Lemma renderTips_requests tips : preserves requests (renderTips tips).
Proof. unfold renderTips. frame_all. Qed.

Lemma renderVideos_requests videos : preserves requests (renderVideos videos).
Proof. unfold renderVideos. frame_all. Qed.

Lemma loadInitialData_tips_requests w :
  requests (loadInitialData_tips w).2 = requests w ++ tips_request w.
Proof.
  unfold loadInitialData_tips, tips_request. run.
  destruct (bool_decide _); cbn; [|symmetry; apply app_nil_r].
  destruct (local_files _ _ _) as [|r]; cbn; [reflexivity|].
  destruct (json r); reflexivity.
Qed.

Lemma fetchQuote_requests w : requests (fetchQuote w).2 = requests w ++ [QUOTE_API_URL].
Proof.
  unfold fetchQuote. run.
  destruct (network _ _ _) as [|r]; cbn; [reflexivity|].
  destruct (ok r); cbn; [|reflexivity].
  destruct (json r) as [[| | | | | |fields]|]; try reflexivity.
  cbn -[toString].
  destruct (toString (assoc "content" fields)); cbn -[toString]; [reflexivity|].
  destruct (toString (assoc "author" fields)); reflexivity.
Qed.

Lemma fetchVideos_requests query w :
  requests (fetchVideos query w).2
  = requests w
    ++ (let key := YOUTUBE_API_KEY (env w) in
        if (bool_decide (key = "YOUR_YOUTUBE_API_KEY") || bool_decide (key = ""))%bool then []
        else match apiUrl key (default "daily motivation" query) with
             | Some url => [url]
             | None => []
             end).
Proof.
  unfold fetchVideos. run. cbn zeta.
  destruct (_ || _)%bool; cbn; [symmetry; apply app_nil_r|].
  destruct (apiUrl _ _) as [url|]; cbn; [|symmetry; apply app_nil_r].
  destruct (network _ _ _) as [|r]; cbn; [reflexivity|].
  destruct (ok r); cbn; [|destruct (text r); reflexivity].
  destruct (json r) as [data|]; cbn; [|reflexivity].
  destruct (get data "items") as [e|items]; cbn; [reflexivity|].
  destruct (array_map simplify_item items); reflexivity.
Qed.

Lemma loadInitialData_quote_requests w :
  requests (loadInitialData_quote w).2 = requests w ++ [QUOTE_API_URL].
Proof.
  unfold loadInitialData_quote.
  destruct (fetchQuote_total w) as [s Hs].
  rewrite (try_catch_run _ _ w tt).
  - rewrite (bind_run _ _ _ _ Hs), renderQuote_requests. apply fetchQuote_requests.
  - rewrite (bind_run _ _ _ _ Hs). apply total_unit, renderQuote_total.
Qed.

Lemma try_catch_throw {B} (body : M B) handler w e :
  (body w).1 = Throw e -> try_catch body handler w = handler e (body w).2.
Proof.
  unfold try_catch. destruct (body w) as [[b|e'|] w']; cbn; intros [= ->]. reflexivity.
Qed.

Lemma bind_throw {B C} (c : M B) (k : B -> M C) w e :
  (c w).1 = Throw e -> bind c k w = (Throw e, (c w).2).
Proof.
  unfold bind. destruct (c w) as [[b|e'|] w']; cbn; intros [= ->]. reflexivity.
Qed.

Lemma loadInitialData_videos_requests w :
  requests (loadInitialData_videos w).2 = requests w ++ videos_request w.
Proof.
  unfold loadInitialData_videos.
  pose proof (fetchVideos_requests
                (Some (if bool_decide (currentCategory w = "all") then "daily wellness"
                       else currentCategory w)) w) as Hreq.
  change (requests w ++ _) with (requests w ++ videos_request w) in Hreq.
  assert (Htry : loadInitialData_videos_try w
                 = bind (fetchVideos
                           (Some (if bool_decide (currentCategory w = "all")
                                  then "daily wellness" else currentCategory w)))
                     renderVideos w) by reflexivity.
  set (q := if bool_decide (currentCategory w = "all") then "daily wellness"
            else currentCategory w) in *.
  destruct (fetchVideos_outcome (Some q) w) as [(l & Hl & _) | (Hthrow & Hw & _)].
  - destruct (renderVideos_outcome l (fetchVideos (Some q) w).2) as [Hr | (e & _ & Hr)].
    + rewrite (try_catch_run _ _ w tt).
      * rewrite Htry, (bind_run _ _ _ _ Hl), renderVideos_requests. exact Hreq.
      * rewrite Htry, (bind_run _ _ _ _ Hl). exact Hr.
    + rewrite (try_catch_throw _ _ w e).
      * rewrite Htry, (bind_run _ _ _ _ Hl), Hr. cbn [snd].
        rewrite <- Hreq. as_frame. frame_all. apply renderVideos_requests.
      * rewrite Htry, (bind_run _ _ _ _ Hl), Hr. reflexivity.
  - rewrite (try_catch_throw _ _ w URIError).
    + rewrite Htry, (bind_throw _ _ _ _ Hthrow). cbn [snd].
      rewrite <- Hreq. as_frame. frame_all. apply renderVideos_requests.
    + rewrite Htry, (bind_throw _ _ _ _ Hthrow). reflexivity.
Qed.

Lemma viewed_world_traces w :
  requests (viewed_world w) = requests w /\ console (viewed_world w) = console w
  /\ localTipsData (viewed_world w) = localTipsData w.
Proof.
  unfold viewed_world.
  destruct (categoryFilter (els w)); cbn;
    (destruct (list_find _ (nav_buttons w)); [repeat split|]);
    cbn; destruct (sections (els w) homeSection); repeat split.
Qed.

Lemma steady_fields w w' :
  steady w = steady w' ->
  favorites w = favorites w' /\ currentView w = currentView w'
  /\ currentCategory w = currentCategory w' /\ nav_buttons w = nav_buttons w'
  /\ localStorage w = localStorage w' /\ env w = env w'
  /\ searchInput (els w) = searchInput (els w') /\ categoryFilter (els w) = categoryFilter (els w')
  /\ sections (els w) = sections (els w') /\ favoritesList (els w) = favoritesList (els w').
Proof. unfold steady. intros [=]. repeat split; assumption. Qed.

(** X4. The requests of a refresh, in order: data.json only while no tip is
    loaded; then, for a full refresh only, the quote and after it the video
    search (the latter only with a configured key and an encodable category).
    A cheap refresh sends nothing to the remote providers. *)
Theorem loadInitialData_requests (fullFetch : bool) (w : world) :
  requests (loadInitialData fullFetch w).2
  = requests w ++ tips_request w
      ++ (if fullFetch then QUOTE_API_URL :: videos_request w else []).
Proof.
  rewrite loadInitialData_run. cbn [snd].
  rewrite (proj1 (viewed_world_traces _)). unfold loaded_world.
  rewrite renderTips_requests. destruct fullFetch.
  - rewrite loadInitialData_videos_requests, loadInitialData_quote_requests,
      loadInitialData_tips_requests.
    assert (Hv : videos_request (loadInitialData_quote (loadInitialData_tips w).2).2
                 = videos_request w).
    { pose proof (loadInitialData_quote_steady (loadInitialData_tips w).2) as H1.
      rewrite loadInitialData_tips_steady in H1.
      apply steady_fields in H1 as (_ & _ & Hc & _ & _ & He & _).
      unfold videos_request. rewrite Hc, He. reflexivity. }
    rewrite Hv, <- !app_assoc. reflexivity.
  - rewrite loadInitialData_tips_requests, app_nil_r. reflexivity.
Qed.

(** ** What a refresh leaves behind *)




(** X7. When the name of the current view is one that the selector of step 5
    quotes as it stands, the current view after a refresh is the one before it
    when some navigation button carries it as its data-page, and home
    otherwise; the buttons themselves are left as they were. *)
Theorem loadInitialData_view_kept (fullFetch : bool) (w : world) :
  selector_plain (currentView w) ->
  let w' := (loadInitialData fullFetch w).2 in
  currentView w'
  = (if bool_decide (Some (currentView w) ∈ page <$> nav_buttons w) then currentView w
     else "home")
  /\ nav_buttons w' = nav_buttons w.
Proof.
  intros _ w'. subst w'. rewrite loadInitialData_run. cbn [snd].
  pose proof (loaded_world_steady fullFetch w) as Hs.
  apply steady_fields in Hs as (_ & Hv & _ & Hn & _).
  destruct (viewed_world_settled (loaded_world fullFetch w)) as [Hset _].
  split.
  - unfold viewed_world. rewrite Hv, Hn.
    destruct (list_find _ (nav_buttons w)) as [[i b]|] eqn:Hfind.
    + apply list_find_Some in Hfind as (Hi & Hpage & _).
      rewrite bool_decide_eq_true_2.
      * destruct (categoryFilter _); assumption.
      * apply list_elem_of_fmap. exists b. split; [congruence|].
        eapply list_elem_of_lookup_2, Hi.
    + rewrite list_find_None in Hfind. rewrite bool_decide_eq_false_2.
      * destruct (categoryFilter _); cbn; destruct (sections _ homeSection); reflexivity.
      * intros (b & Hb & Hin)%list_elem_of_fmap.
        rewrite Forall_forall in Hfind. apply (Hfind b Hin). congruence.
  - unfold settled in Hset. injection Hset as _ _ _ Hn' _ _ _ _. congruence.
Qed.

Lemma loadInitialData_view_kept_witness :
  selector_plain (currentView favorites_world)
  /\ currentView (loadInitialData false favorites_world).2 = "home".
Proof.
  assert (H : selector_plain (currentView favorites_world)).
  { unfold selector_plain. apply (bool_decide_unpack _). vm_compute. exact I. }
  split; [exact H|].
  exact (proj1 (loadInitialData_view_kept false favorites_world H)).
Defined.

(** ** A click on a heart, end to end *)

Lemma handleToggleFavorite_world button w :
  (handleToggleFavorite (Some button) w).2
  = if bool_decide (currentView w = "favorites")
    then (renderFavorites (toggled_world button w)).2
    else (loadInitialData false (toggled_world button w)).2.
Proof.
  unfold handleToggleFavorite, toggled_world.
  rewrite (bind_run _ _ w (favorites w)) by reflexivity. cbn [read snd].
  set (index := findIndex _ (favorites w)).
  set (w1 := set_favorites (toggled button (localTipsData w) (favorites w)) w).
  assert (Hstep : forall k : unit -> M unit,
             bind (if (index =? -1)%Z
                   then modify (fun w => set_favorites
                                           (favorites w ++ [newItem button (localTipsData w)]) w)
                   else modify (fun w => set_favorites (splice1 index (favorites w)) w)) k w
             = k tt w1).
  { intros k. unfold w1, toggled. fold index. destruct (index =? -1)%Z; reflexivity. }
  rewrite Hstep. clear Hstep.
  rewrite (bind_run _ _ w1 (favorites w1)) by reflexivity. cbn [read snd].
  rewrite (bind_run _ _ w1 tt) by apply total_unit, storage_set_total.
  set (w2 := (storage_set _ _ w1).2).
  assert (Hv : currentView w2 = currentView w).
  { assert (Hp : forall v, preserves currentView (storage_set keys.FAVORITES v))
      by (intros v; unfold storage_set; frame).
    unfold w2. rewrite Hp. reflexivity. }
  rewrite (bind_run _ _ w2 (currentView w2)) by reflexivity. cbn [read snd].
  rewrite Hv. destruct (bool_decide _); [reflexivity|].
  rewrite (detached_run _ _ tt) by (rewrite loadInitialData_run; reflexivity). reflexivity.
Qed.

Lemma toggled_world_fields button w :
  favorites (toggled_world button w) = toggled button (localTipsData w) (favorites w)
  /\ localTipsData (toggled_world button w) = localTipsData w
  /\ els (toggled_world button w) = els w
  /\ env (toggled_world button w) = env w
  /\ localStorage (toggled_world button w)
     = let data := JSON_stringify (env w)
                     (value_of_favorites (toggled button (localTipsData w) (favorites w))) in
       if (storage_readable (env w)
           && storage_accepts (env w) (localStorage w) keys.FAVORITES data)%bool
       then <[keys.FAVORITES := data]> (localStorage w)
       else localStorage w.
Proof.
  unfold toggled_world, storage_set, localStorage_setItem. run.
  cbn -[toggled value_of_favorites keys.FAVORITES].
  destruct (storage_readable (env w)); cbn -[toggled value_of_favorites keys.FAVORITES];
    [|repeat split].
  destruct (storage_accepts _ _ _ _); repeat split.
Qed.

Lemma loadInitialData_settled fullFetch w :
  settled (loadInitialData fullFetch w).2 = settled w.
Proof.
  rewrite loadInitialData_run. cbn [snd].
  rewrite (proj1 (viewed_world_settled _)).
  pose proof (loaded_world_steady fullFetch w) as H.
  unfold steady in H. injection H as ?. unfold settled. congruence.
Qed.

Lemma handleToggleFavorite_settled button w :
  favorites (handleToggleFavorite (Some button) w).2 = favorites (toggled_world button w)
  /\ localStorage (handleToggleFavorite (Some button) w).2 = localStorage (toggled_world button w).
Proof.
  rewrite handleToggleFavorite_world. destruct (bool_decide _).
  - split.
    + apply (renderFavorites_frame favorites). reflexivity.
    + apply (renderFavorites_frame localStorage). reflexivity.
  - pose proof (loadInitialData_settled false (toggled_world button w)) as H.
    unfold settled in H. injection H as ?. auto.
Qed.

Lemma isFavorited_elem id w :
  isFavorited (VStr id) w = bool_decide (id ∈ (Fav.id <$> favorites w)).
Proof.
  unfold isFavorited. induction (favorites w) as [|fav l IH]; [reflexivity|].
  cbn [existsb]. rewrite IH. unfold strict_eq_string. rewrite fmap_cons.
  destruct (decide (Fav.id fav = id)) as [-> | Hne].
  - rewrite (bool_decide_eq_true_2 (id = id)) by reflexivity.
    rewrite (bool_decide_eq_true_2 (id ∈ id :: _)) by left. reflexivity.
  - rewrite (bool_decide_eq_false_2 (Fav.id fav = id)) by assumption. cbn [orb].
    apply bool_decide_ext. rewrite elem_of_cons. split; [auto|].
    intros [-> | H]; [contradiction | exact H].
Qed.

(** X8. A click on a heart flips what [isFavorited] answers for the id of the
    button, provided the ids were pairwise distinct, and leaves the answer for
    every other id as it was. *)
Theorem toggle_flips_isFavorited (button : Button.t) (w : world) :
  let w' := (handleToggleFavorite (Some button) w).2 in
  (NoDup (Fav.id <$> favorites w) ->
   isFavorited (VStr (Button.id button)) w' = negb (isFavorited (VStr (Button.id button)) w))
  /\ forall id, id <> Button.id button ->
       isFavorited (VStr id) w' = isFavorited (VStr id) w.
Proof.
  intros w'. subst w'.
  assert (Hfav : favorites (handleToggleFavorite (Some button) w).2
                 = toggled button (localTipsData w) (favorites w)).
  { rewrite (proj1 (handleToggleFavorite_settled button w)).
    apply toggled_world_fields. }
  split.
  - intros Hnd. rewrite !isFavorited_elem, Hfav.
    destruct (toggled_step button (localTipsData w) (favorites w) Hnd)
      as [[(Habs & -> & Hid) | (l1 & e & l2 & Hbefore & He & -> & Hgone)] _].
    + rewrite (bool_decide_eq_false_2 _ Habs). cbn. apply bool_decide_eq_true_2.
      rewrite fmap_app, elem_of_app. right. cbn. rewrite Hid. left.
    + rewrite (bool_decide_eq_false_2 _ Hgone). symmetry. apply negb_false_iff.
      apply bool_decide_eq_true_2. rewrite Hbefore, fmap_app, elem_of_app. right.
      cbn. rewrite He. left.
  - intros id Hne. rewrite !isFavorited_elem, Hfav. apply bool_decide_ext.
    assert (Hfilter : forall l : list Fav.t,
               id ∈ (Fav.id <$> l)
               <-> id ∈ (Fav.id <$> filter (fun fav => Fav.id fav <> Button.id button) l)).
    { intros l. rewrite !list_elem_of_fmap. split.
      - intros (fav & -> & Hin). exists fav. split; [reflexivity|].
        apply list_elem_of_filter. auto.
      - intros (fav & -> & Hin). exists fav. split; [reflexivity|].
        apply list_elem_of_filter in Hin. tauto. }
    rewrite (Hfilter (toggled _ _ _)), toggled_others, <- Hfilter. reflexivity.
Qed.

Lemma toggle_flips_isFavorited_witness :
  isFavorited (VStr "e-g-j8Jt4_8") (handleToggleFavorite (Some video_button) home_world).2
  = negb (isFavorited (VStr "e-g-j8Jt4_8") home_world).
Proof.
  apply (proj1 (toggle_flips_isFavorited video_button home_world)).
  apply (bool_decide_unpack _). vm_compute. exact I.
Defined.

(** X9. After a click on a heart the stored favorites are the serialized
    favorites of the page whenever the store accepts the write; when it
    refuses, the store keeps what it had while the page goes on with the new
    favorites. *)
Theorem toggle_persists_favorites (button : Button.t) (w : world) :
  let w' := (handleToggleFavorite (Some button) w).2 in
  let data := JSON_stringify (env w) (value_of_favorites (favorites w')) in
  favorites w' = toggled button (localTipsData w) (favorites w)
  /\ localStorage w'
     = if (storage_readable (env w)
           && storage_accepts (env w) (localStorage w) keys.FAVORITES data)%bool
       then <[keys.FAVORITES := data]> (localStorage w)
       else localStorage w.
Proof.
  intros w' data. subst w' data.
  destruct (handleToggleFavorite_settled button w) as [Hf Hs].
  destruct (toggled_world_fields button w) as (Hf' & _ & _ & _ & Hs').
  rewrite Hs, Hf, Hf'. split; [reflexivity | exact Hs'].
Qed.

Lemma filter_all {A} (P : A -> Prop) `{!forall x, Decision (P x)} (l : list A) :
  Forall P l -> filter P l = l.
Proof.
  induction 1 as [|x l Hx _ IH]; [reflexivity|].
  rewrite filter_cons_True, IH by assumption. reflexivity.
Qed.

Lemma toggled_present button tips favs :
  NoDup (Fav.id <$> favs) -> Button.id button ∈ (Fav.id <$> favs) ->
  toggled button tips favs = filter (fun fav => Fav.id fav <> Button.id button) favs.
Proof.
  intros Hnd Hin.
  destruct (toggled_step button tips favs Hnd)
    as [[(Habs & _) | (l1 & e & l2 & Hbefore & He & Hafter & Hgone)] _]; [contradiction|].
  rewrite <- toggled_others with (tips := tips).
  symmetry. apply filter_all.
  rewrite Forall_forall. intros fav Hfav Heq. apply Hgone.
  apply list_elem_of_fmap. exists fav. split; [congruence | exact Hfav].
Qed.

Lemma filter_filter_comm {A} (P Q : A -> Prop)
  `{!forall x, Decision (P x)} `{!forall x, Decision (Q x)} (l : list A) :
  filter P (filter Q l) = filter Q (filter P l).
Proof.
  induction l as [|x l IH]; [reflexivity|].
  rewrite !filter_cons.
  destruct (decide (Q x)), (decide (P x)); rewrite ?filter_cons;
    repeat case_decide; try contradiction; congruence.
Qed.

Lemma renderFavorites_markup w :
  favoritesList (els (renderFavorites w).2)
  = match favoritesList (els w) with
    | None => None
    | Some _ =>
        Some (Some match filter (fun fav => Fav.type fav = "video") (favorites w) with
                   | [] => NoFavoriteVideos
                   | l => FavoriteCards l
                   end)
    end.
Proof.
  unfold renderFavorites. run.
  destruct (favoritesList (els w)) as [old|] eqn:E; cbn; [|exact E].
  do 2 f_equal. rewrite length_zero_match, map_id.
  rewrite (List_filter_decide (fun fav => Fav.type fav = "video")).
  - destruct (filter _ _); reflexivity.
  - intros fav. apply bool_decide_eq_true.
Qed.

(** X10. In the favorites view a click on the heart of a listed entry, the
    ids being pairwise distinct, rewrites the list as the video favorites
    without that entry: every other card stays, in the same order. *)
Theorem remove_in_favorites_view (button : Button.t) (w : world) :
  currentView w = "favorites" ->
  NoDup (Fav.id <$> favorites w) ->
  Button.id button ∈ (Fav.id <$> favorites w) ->
  let w' := (handleToggleFavorite (Some button) w).2 in
  let videos := filter (fun fav => Fav.type fav = "video") in
  videos (favorites w') = filter (fun fav => Fav.id fav <> Button.id button) (videos (favorites w))
  /\ favoritesList (els w')
     = match favoritesList (els w) with
       | None => None
       | Some _ => Some (Some match videos (favorites w') with
                              | [] => NoFavoriteVideos
                              | l => FavoriteCards l
                              end)
       end.
Proof.
  intros Hview Hnd Hin w' videos. subst w' videos.
  destruct (handleToggleFavorite_settled button w) as [Hf _].
  destruct (toggled_world_fields button w) as (Hf' & _ & He & _).
  rewrite Hf, Hf', (toggled_present _ _ _ Hnd Hin). split.
  - apply filter_filter_comm.
  - rewrite handleToggleFavorite_world, Hview, bool_decide_eq_true_2 by reflexivity.
    rewrite renderFavorites_markup, He, Hf', (toggled_present _ _ _ Hnd Hin). reflexivity.
Qed.

Lemma remove_in_favorites_view_witness :
  favoritesList (els (handleToggleFavorite (Some video_button) favorites_world).2)
  = Some (Some NoFavoriteVideos).
Proof.
  refine (proj2 (remove_in_favorites_view video_button favorites_world _ _ _)).
  - reflexivity.
  - apply (bool_decide_unpack _). vm_compute. exact I.
  - apply (bool_decide_unpack _). vm_compute. exact I.
Defined.





(** ** Navigation *)

Lemma classList_hidden_run hide name w :
  is_Some (sections (els w) name) ->
  classList_hidden hide name w = (Ret tt, set_hidden hide name w).
Proof. intros [h H]. unfold classList_hidden. rewrite H. reflexivity. Qed.

Lemma classList_hidden_missing hide name w :
  sections (els w) name = None -> classList_hidden hide name w = (Throw TypeError, w).
Proof. intros H. unfold classList_hidden. rewrite H. reflexivity. Qed.

Lemma bind_classList {C} hide name (k : unit -> M C) w :
  is_Some (sections (els w) name) ->
  bind (classList_hidden hide name) k w = k tt (set_hidden hide name w).
Proof.
  intros H. rewrite (bind_run _ _ w tt) by (rewrite classList_hidden_run; auto).
  rewrite classList_hidden_run by assumption. reflexivity.
Qed.

Lemma all_sections_set_hidden hide name w : all_sections w -> all_sections (set_hidden hide name w).
Proof. intros H n. cbn. case_bool_decide; [eauto | apply H]. Qed.

Lemma all_sections_same_els w w' : els w' = els w -> all_sections w -> all_sections w'.
Proof. intros He H n. rewrite He. apply H. Qed.

(** The start of a transition: the view a click asks for. *)
Lemma handleNavigation_with_start reload i b view w :
  nav_buttons w !! i = Some b -> page b = Some view ->
  view <> "" -> view <> currentView w ->
  handleNavigation_with reload (Some i) w
  = (let* _ := classList_hidden true homeSection in
     let* _ := classList_hidden true favoritesSection in
     let* _ := modify (fun w => set_nav_buttons (set_active false <$> nav_buttons w) w) in
     let* _ := modify (set_currentView view) in
     let* _ := modify (fun w => set_nav_buttons (alter (set_active true) i (nav_buttons w)) w) in
     if bool_decide (view = "home") then
       let* _ := classList_hidden false homeSection in
       let* _ := classList_hidden false quoteSection in
       let* _ := classList_hidden false videoSidebar in
       let* _ := classList_hidden false tipsSection in
       detached (reload false)
     else if bool_decide (view = "tips") then
       let* _ := classList_hidden false homeSection in
       let* _ := classList_hidden true quoteSection in
       let* _ := classList_hidden true videoSidebar in
       let* _ := classList_hidden false tipsSection in
       detached (reload false)
     else if bool_decide (view = "favorites") then
       let* _ := classList_hidden false favoritesSection in
       let* _ := classList_hidden true quoteSection in
       let* _ := classList_hidden true videoSidebar in
       let* _ := classList_hidden true tipsSection in
       renderFavorites
     else ret tt) w.
Proof.
  intros Hi Hpage Hne Hcur. unfold handleNavigation_with.
  rewrite (bind_run _ _ w (nav_buttons w)) by reflexivity. cbn [read snd].
  cbn [mbind option_bind]. rewrite Hi. cbn [mbind option_bind]. rewrite Hpage.
  rewrite (bind_run _ _ w (currentView w)) by reflexivity. cbn [read snd].
  destruct view as [|c v]; [contradiction|].
  rewrite bool_decide_eq_false_2 by assumption. reflexivity.
Qed.

(** X12. A click that names no view does nothing: a target outside every
    navigation button, a button without data-page or with an empty one, and
    the button of the view that is already current all leave the world as it
    is. *)
Theorem handleNavigation_noop (event : option nat) (w : world) :
  let view := button ← (i ← event; nav_buttons w !! i); page button in
  view = None \/ view = Some "" \/ view = Some (currentView w) ->
  handleNavigation event w = (Ret tt, w).
Proof.
  intros view Hview. unfold handleNavigation, handleNavigation_with.
  rewrite (bind_run _ _ w (nav_buttons w)) by reflexivity. cbn [read snd].
  fold view. rewrite (bind_run _ _ w (currentView w)) by reflexivity. cbn [read snd].
  destruct Hview as [-> | [-> | ->]]; try reflexivity.
  destruct (currentView w); [reflexivity|].
  rewrite bool_decide_eq_true_2 by reflexivity. reflexivity.
Qed.

Lemma handleNavigation_noop_witness :
  handleNavigation (Some 0%nat) home_world = (Ret tt, home_world).
Proof.
  apply (handleNavigation_noop (Some 0%nat) home_world).
  right. right. reflexivity.
Defined.

(** X13. A click that asks for another view while a top-level section is
    missing throws: without the home section nothing has changed; with it but
    without the favorites section the home section is already hidden, and the
    current view and the buttons are still the old ones. *)
Theorem handleNavigation_missing_section (i : nat) (b : NavButton) (view : string) (w : world) :
  nav_buttons w !! i = Some b -> page b = Some view ->
  view <> "" -> view <> currentView w ->
  (sections (els w) homeSection = None ->
   handleNavigation (Some i) w = (Throw TypeError, w))
  /\ (is_Some (sections (els w) homeSection) ->
      sections (els w) favoritesSection = None ->
      handleNavigation (Some i) w = (Throw TypeError, set_hidden true homeSection w)).
Proof.
  intros Hi Hpage Hne Hcur. unfold handleNavigation.
  rewrite (handleNavigation_with_start _ i b view w Hi Hpage Hne Hcur). split.
  - intros Hhome. rewrite (bind_throw _ _ w TypeError);
      rewrite classList_hidden_missing by assumption; reflexivity.
  - intros Hhome Hfav. rewrite bind_classList by assumption.
    rewrite (bind_throw _ _ _ TypeError);
      rewrite classList_hidden_missing; try reflexivity; cbn; exact Hfav.
Qed.

Lemma handleNavigation_missing_section_witness :
  handleNavigation (Some 1%nat) no_home_world = (Throw TypeError, no_home_world).
Proof.
  apply (proj1 (handleNavigation_missing_section 1 (mkNavButton (Some "favorites") false)
                  "favorites" no_home_world eq_refl eq_refl ltac:(discriminate)
                  ltac:(discriminate))).
  reflexivity.
Defined.

(** With a button for the current view a refresh keeps the view, the
    sections, the buttons and the favorites. *)
Lemma loadInitialData_found fullFetch i b w :
  nav_buttons w !! i = Some b -> page b = Some (currentView w) ->
  let w' := (loadInitialData fullFetch w).2 in
  currentView w' = currentView w /\ sections (els w') = sections (els w)
  /\ nav_buttons w' = nav_buttons w /\ favorites w' = favorites w
  /\ favoritesList (els w') = favoritesList (els w).
Proof.
  intros Hi Hpage w'. subst w'. rewrite loadInitialData_run. cbn [snd].
  pose proof (loaded_world_steady fullFetch w) as Hs.
  apply steady_fields in Hs as (Hf & Hv & _ & Hn & _ & _ & _ & _ & Hsec & Hfl).
  set (W := loaded_world fullFetch w) in *.
  unfold viewed_world.
  destruct (list_find _ (nav_buttons W)) as [[j b']|] eqn:Hfind.
  - destruct (categoryFilter (els W)); cbn; auto.
  - exfalso. rewrite list_find_None, Forall_forall in Hfind.
    apply (Hfind b); [|congruence].
    rewrite Hn. eapply list_elem_of_lookup_2, Hi.
Qed.

Lemma clicked_button_active (i : nat) (buttons : list NavButton) :
  (forall j b, alter (set_active true) i (set_active false <$> buttons) !! j = Some b ->
               active b = bool_decide (j = i))
  /\ page <$> alter (set_active true) i (set_active false <$> buttons) = page <$> buttons.
Proof.
  split.
  - intros j b Hj. destruct (decide (j = i)) as [-> | Hne].
    + rewrite bool_decide_eq_true_2 by reflexivity.
      rewrite list_lookup_alter_eq in Hj.
      destruct ((set_active false <$> buttons) !! i); cbn in Hj; [|discriminate].
      injection Hj as <-. reflexivity.
    + rewrite bool_decide_eq_false_2 by assumption.
      rewrite list_lookup_alter_ne, list_lookup_fmap in Hj by congruence.
      destruct (buttons !! j); cbn in Hj; [|discriminate].
      injection Hj as <-. reflexivity.
  - apply list_eq. intros j. rewrite !list_lookup_fmap.
    destruct (decide (j = i)) as [-> | Hne].
    + rewrite list_lookup_alter_eq, list_lookup_fmap.
      destruct (buttons !! i); reflexivity.
    + rewrite list_lookup_alter_ne, list_lookup_fmap by congruence.
      destruct (buttons !! j); reflexivity.
Qed.

Lemma all_sections_set_currentView v w : all_sections w -> all_sections (set_currentView v w).
Proof. intros H n. apply H. Qed.

Lemma all_sections_set_nav_buttons l w : all_sections w -> all_sections (set_nav_buttons l w).
Proof. intros H n. apply H. Qed.

Ltac all_present :=
  repeat first [ assumption | apply all_sections_set_hidden
               | apply all_sections_set_currentView | apply all_sections_set_nav_buttons ].

Ltac present :=
  match goal with
  | |- is_Some (sections (els ?w) _) =>
      let H := fresh in assert (H : all_sections w) by all_present; apply H
  | |- all_sections _ => all_present
  end.

(** X14. A click on the button of another view among home, tips and
    favorites, on a page that has its five sections, completes; afterwards
    that view is current, each section is hidden or shown as the view
    prescribes, the clicked button alone is highlighted, and the favorites
    are untouched. *)
Theorem handleNavigation_shows_view (i : nat) (b : NavButton) (view : string) (w : world) :
  nav_buttons w !! i = Some b -> page b = Some view ->
  view <> currentView w ->
  view ∈ ["home"; "tips"; "favorites"] ->
  all_sections w ->
  let w' := (handleNavigation (Some i) w).2 in
  (handleNavigation (Some i) w).1 = Ret tt
  /\ currentView w' = view
  /\ (forall n, sections (els w') n = Some (hidden_in view n))
  /\ (forall j b', nav_buttons w' !! j = Some b' -> active b' = bool_decide (j = i))
  /\ page <$> nav_buttons w' = page <$> nav_buttons w
  /\ favorites w' = favorites w.
Proof.
  intros Hi Hpage Hcur Hview Hall w'. subst w'. unfold handleNavigation.
  assert (Hne : view <> "").
  { intros ->. repeat (apply elem_of_cons in Hview as [Hview | Hview]; [discriminate|]).
    inversion Hview. }
  rewrite (handleNavigation_with_start _ i b view w Hi Hpage Hne Hcur).
  rewrite !bind_classList by present.
  rewrite (bind_run _ _ _ tt) by reflexivity. cbn [modify snd].
  rewrite (bind_run _ _ _ tt) by reflexivity. cbn [modify snd].
  rewrite (bind_run _ _ _ tt) by reflexivity. cbn [modify snd].
  set (wA := set_hidden true favoritesSection (set_hidden true homeSection w)).
  set (wB := set_nav_buttons _ (set_currentView view (set_nav_buttons _ wA))).
  assert (HallB : all_sections wB) by (subst wB wA; present).
  assert (Hbuttons : nav_buttons wB
                     = alter (set_active true) i (set_active false <$> nav_buttons w))
    by reflexivity.
  destruct (clicked_button_active i (nav_buttons w)) as [Hactive Hpages].
  assert (HiB : exists b', nav_buttons wB !! i = Some b' /\ page b' = Some view).
  { rewrite Hbuttons, list_lookup_alter_eq, list_lookup_fmap, Hi. cbn. eauto. }
  destruct HiB as (b' & HiB & HpageB).
  assert (Hreload : forall wC,
             currentView wC = view -> nav_buttons wC = nav_buttons wB ->
             favorites wC = favorites w ->
             (detached (loadInitialData false) wC).1 = Ret tt
             /\ currentView (detached (loadInitialData false) wC).2 = view
             /\ sections (els (detached (loadInitialData false) wC).2) = sections (els wC)
             /\ nav_buttons (detached (loadInitialData false) wC).2 = nav_buttons wB
             /\ favorites (detached (loadInitialData false) wC).2 = favorites w).
  { intros wC Hv Hn Hf.
    rewrite (detached_run _ _ tt) by (rewrite loadInitialData_run; reflexivity).
    destruct (loadInitialData_found false i b' wC) as (H1 & H2 & H3 & H4 & _);
      [congruence | congruence |].
    rewrite loadInitialData_run at 1. cbn [fst]. repeat split; congruence. }
  repeat (apply elem_of_cons in Hview as [-> | Hview]); [| | |inversion Hview].
  - rewrite bool_decide_eq_true_2 by reflexivity.
    rewrite !bind_classList by present.
    edestruct Hreload as (H1 & H2 & H3 & H4 & H5); [| | |rewrite H1, H2, H3, H4, H5];
      try reflexivity.
    repeat split; try assumption; try (rewrite Hbuttons; assumption).
    intros []; reflexivity.
  - rewrite bool_decide_eq_false_2 by discriminate.
    rewrite bool_decide_eq_true_2 by reflexivity.
    rewrite !bind_classList by present.
    edestruct Hreload as (H1 & H2 & H3 & H4 & H5); [| | |rewrite H1, H2, H3, H4, H5];
      try reflexivity.
    repeat split; try assumption; try (rewrite Hbuttons; assumption).
    intros []; reflexivity.
  - rewrite !(bool_decide_eq_false_2 ("favorites" = _)) by discriminate.
    rewrite bool_decide_eq_true_2 by reflexivity.
    rewrite !bind_classList by present.
    set (wC := set_hidden true tipsSection _).
    split; [apply total_unit, renderFavorites_total|].
    rewrite (renderFavorites_frame currentView), (renderFavorites_frame nav_buttons),
      (renderFavorites_frame favorites) by reflexivity.
    assert (Hsec : sections (els (renderFavorites wC).2) = sections (els wC)).
    { generalize wC. change (preserves (fun w => sections (els w)) renderFavorites).
      unfold renderFavorites. frame. }
    rewrite Hsec. repeat split; try assumption; try (rewrite Hbuttons; assumption).
    + intros []; reflexivity.
    + intros j b0. rewrite (renderFavorites_frame nav_buttons) by reflexivity.
      intros Hj. apply (Hactive j b0). rewrite <- Hbuttons. exact Hj.
Qed.

Lemma handleNavigation_shows_view_witness :
  currentView (handleNavigation (Some 1%nat) home_world).2 = "favorites".
Proof.
  refine (proj1 (proj2 (handleNavigation_shows_view 1 (mkNavButton (Some "favorites") false)
                          "favorites" home_world eq_refl eq_refl _ _ _))).
  - discriminate.
  - apply (bool_decide_unpack _). vm_compute. exact I.
  - intros n. eexists. reflexivity.
Defined.

(** X15. A click on a button whose data-page is none of home, tips and
    favorites still switches: that page becomes the current view, the clicked
    button is highlighted, and both top-level sections end up hidden, with
    nothing rendered and nothing requested. *)
Theorem handleNavigation_unknown_view (i : nat) (b : NavButton) (view : string) (w : world) :
  nav_buttons w !! i = Some b -> page b = Some view ->
  view <> "" -> view <> currentView w ->
  view ∉ ["home"; "tips"; "favorites"] ->
  is_Some (sections (els w) homeSection) ->
  is_Some (sections (els w) favoritesSection) ->
  handleNavigation (Some i) w
  = (Ret tt,
     set_nav_buttons (alter (set_active true) i (set_active false <$> nav_buttons w))
       (set_currentView view
          (set_hidden true favoritesSection (set_hidden true homeSection w)))).
Proof.
  intros Hi Hpage Hne Hcur Hview Hhome Hfav. unfold handleNavigation.
  rewrite (handleNavigation_with_start _ i b view w Hi Hpage Hne Hcur).
  rewrite bind_classList by assumption.
  rewrite bind_classList by (destruct Hfav as [h Hfav]; cbn; rewrite Hfav; eauto).
  rewrite !bool_decide_eq_false_2; [reflexivity|..];
    intros ->; apply Hview; apply (bool_decide_unpack _); vm_compute; exact I.
Qed.

Lemma handleNavigation_unknown_view_witness :
  currentView (handleNavigation (Some 1%nat) about_world).2 = "about".
Proof.
  rewrite (handleNavigation_unknown_view 1 (mkNavButton (Some "about") false) "about"
             about_world eq_refl eq_refl).
  - reflexivity.
  - discriminate.
  - discriminate.
  - apply (bool_decide_unpack _). vm_compute. exact I.
  - eexists. reflexivity.
  - eexists. reflexivity.
Defined.

(** ** The search box and the category filter *)









(** ** The quote on the page *)

Lemma fetchQuote_els w : els (fetchQuote w).2 = els w /\ favorites (fetchQuote w).2 = favorites w.
Proof.
  assert (H : preserves (fun w => (els w, favorites w)) fetchQuote)
    by (unfold fetchQuote; frame_all).
  specialize (H w). injection H as ? ?. auto.
Qed.

(** Step 2 of [loadInitialData], given the string [fetchQuote] returned. *)
Lemma loadInitialData_quote_shows w s :
  (fetchQuote w).1 = Ret s ->
  quoteContent (els (loadInitialData_quote w).2)
  = match quoteContent (els w) with
    | None => None
    | Some _ =>
        let parts := List.map JsString.trim (JsString.split s "—") in
        Some (Some (mkQuoteMarkup
                      (or_else (or_else (List.hd "" parts) s) "[object Object]")
                      (or_else (if bool_decide (1 < length parts)%nat
                                then JsString.join "—" (List.tl parts) else "Zen Master")
                         "Zen Master")
                      getDailyQuoteId (isFavorited (VStr getDailyQuoteId) w)))
    end.
Proof.
  intros Hs. unfold loadInitialData_quote.
  destruct (fetchQuote_els w) as [He Hf].
  rewrite (try_catch_run _ _ w tt).
  2:{ rewrite (bind_run _ _ _ _ Hs). apply total_unit, renderQuote_total. }
  rewrite (bind_run _ _ _ _ Hs). unfold renderQuote. run. rewrite He.
  destruct (quoteContent (els w)) eqn:E; cbn; [|rewrite He; exact E].
  unfold isFavorited. rewrite Hf. reflexivity.
Qed.

(** X18. When the quote request fails or is answered with a status that is
    not ok, the quote element shows the fallback text with Martin Golding as
    its author, under the id of the daily quote, with the heart filled exactly
    when that id is a favorite. *)
Theorem quote_fallback_shown (w : world) (old : option quote_markup) :
  quoteContent (els w) = Some old ->
  network (env w) (length (requests w)) QUOTE_API_URL = NetworkFault
  \/ (exists r, network (env w) (length (requests w)) QUOTE_API_URL = Responded r
                /\ ok r = false) ->
  quoteContent (els (loadInitialData_quote w).2)
  = Some (Some (mkQuoteMarkup
                  "Always code as if the person who ends up maintaining your code will be a violent psychopath who knows where to live."
                  "Martin Golding" "daily-quote-inspiration"
                  (isFavorited (VStr "daily-quote-inspiration") w))).
Proof.
  intros Hmount Hfail.
  assert (Hs : (fetchQuote w).1 = Ret fallback_quote).
  { unfold fetchQuote. run.
    destruct Hfail as [-> | (r & -> & Hok)]; cbn; [reflexivity|].
    rewrite Hok. reflexivity. }
  rewrite (loadInitialData_quote_shows w _ Hs), Hmount. reflexivity.
Qed.

Lemma quote_fallback_shown_witness :
  quoteContent (els (loadInitialData_quote home_world).2)
  = Some (Some (mkQuoteMarkup
                  "Always code as if the person who ends up maintaining your code will be a violent psychopath who knows where to live."
                  "Martin Golding" "daily-quote-inspiration" true)).
Proof.
  apply (quote_fallback_shown home_world None eq_refl). left. reflexivity.
Defined.

(** ** The videos of a successful search *)

Lemma map_sum_mapM {A B} (f : A -> exn + B) (l : list A) :
  match map_sum f l with
  | inr l' => mapM (fun x => match f x with inr y => Some y | inl _ => None end) l = Some l'
  | inl _ => mapM (fun x => match f x with inr y => Some y | inl _ => None end) l = None
  end.
Proof.
  induction l as [|x l IH]; [reflexivity|].
  cbn. destruct (f x) as [e|y]; cbn; [reflexivity|].
  destruct (map_sum f l) as [e|l']; cbn; rewrite IH; reflexivity.
Qed.

(** X19. An ok answer whose body holds an array of items gives one video per
    item, in the order of the items and however many there are, when every
    item has an id and a snippet that are not null; a single item without
    them makes the whole result the empty list. *)
Theorem fetchVideos_maps_items (query : option string) (url : string) (r : response value)
    (data : value) (items : list value) (w : world) :
  configured w ->
  apiUrl (YOUTUBE_API_KEY (env w)) (default "daily motivation" query) = Some url ->
  network (env w) (length (requests w)) url = Responded r ->
  ok r = true -> json r = Some data -> get data "items" = inr (VArr items) ->
  (fetchVideos query w).1 = Ret (default [] (mapM video_of_item items))
  /\ (forall l, mapM video_of_item items = Some l -> length l = length items)
  /\ (forall fields id snippet,
        assoc "id" fields = VObj id -> assoc "snippet" fields = VObj snippet ->
        video_of_item (VObj fields)
        = Some (Video.mk (assoc "videoId" id) (assoc "title" snippet)
                  (assoc "channelTitle" snippet)))
  /\ (forall fields,
        assoc "id" fields = VUndef \/ assoc "id" fields = VNull
        \/ assoc "snippet" fields = VUndef \/ assoc "snippet" fields = VNull ->
        video_of_item (VObj fields) = None).
Proof.
  intros Hc Hurl Hnet Hok Hjson Hitems. repeat split.
  - unfold fetchVideos. run. rewrite (configured_guard w Hc), Hurl. cbn.
    rewrite Hnet. cbn. rewrite Hok. cbn. rewrite Hjson. cbn. rewrite Hitems. cbn.
    pose proof (map_sum_mapM simplify_item items) as H.
    unfold video_of_item.
    destruct (map_sum simplify_item items) as [e|l]; cbn; rewrite H; reflexivity.
  - intros l Hl. apply length_mapM in Hl. congruence.
  - intros fields id snippet Hid Hsn. unfold video_of_item, simplify_item. cbn.
    rewrite Hid, Hsn. reflexivity.
  - intros fields H. unfold video_of_item, simplify_item. cbn.
    destruct H as [-> | [-> | [H | H]]]; try reflexivity;
      destruct (assoc "id" fields); cbn; rewrite ?H; reflexivity.
Qed.

(** ** Splitting the quote string at the dash *)

Lemma append_cons x a s : String x a +:+ s = String x (a +:+ s).
Proof. reflexivity. Qed.

Lemma string_of_list_app l s c :
  string_of_list_ascii (l ++ [c]) +:+ s = string_of_list_ascii l +:+ String c s.
Proof.
  induction l as [|x l IH]; simpl; [reflexivity|].
  rewrite !append_cons, IH. reflexivity.
Qed.

Lemma append_empty_r s : s +:+ "" = s.
Proof.
  induction s as [|c s IH]; [reflexivity|].
  rewrite append_cons, IH. reflexivity.
Qed.

Lemma occurs_cons c s sub :
  occurs (String c s) sub = false ->
  JsString.startsWith (String c s) sub = false /\ occurs s sub = false.
Proof. cbn [occurs]. apply orb_false_elim. Qed.

(** A string without the separator is a single piece. *)
Lemma split_go_whole sep cur s :
  occurs s sep = false ->
  JsString.split_go sep 0 cur s = [string_of_list_ascii (rev cur) +:+ s].
Proof.
  revert cur. induction s as [|c s IH]; intros cur H.
  - cbn. rewrite append_empty_r. reflexivity.
  - apply occurs_cons in H as [Hstart Hrest].
    cbn [JsString.split_go]. rewrite Hstart, (IH _ Hrest). cbn [rev].
    rewrite string_of_list_app. reflexivity.
Qed.

(** A dash cannot begin inside a piece that is followed by a space. *)
Lemma startsWith_dash_space c r :
  JsString.startsWith (c +:+ String " " r) "—" = true -> JsString.startsWith c "—" = true.
Proof.
  destruct c as [|c1 [|c2 [|c3 c4]]]; rewrite ?append_cons;
    change ("" +:+ String " " r) with (String " " r);
    cbn [JsString.startsWith].
  all: repeat case_bool_decide; cbn [andb]; try congruence.
  intros _. destruct c4; reflexivity.
Qed.

Lemma string_of_list_snoc l c :
  string_of_list_ascii (l ++ [c]) = string_of_list_ascii l +:+ String c "".
Proof. rewrite <- string_of_list_app, append_empty_r. reflexivity. Qed.

Lemma split_go_dash cur c rest :
  occurs c "—" = false ->
  JsString.split_go "—" 0 cur (c +:+ " —" +:+ rest)
  = (string_of_list_ascii (rev cur) +:+ c +:+ " ") :: JsString.split_go "—" 0 [] rest.
Proof.
  revert cur. induction c as [|ch c IH]; intros cur H.
  - change ("" +:+ " —" +:+ rest)
      with (String " " (String "226" (String "128" (String "148" rest)))).
    change ("" +:+ " ") with " ".
    assert (E1 : JsString.startsWith
                   (String " " (String "226" (String "128" (String "148" rest)))) "—" = false)
      by reflexivity.
    assert (E2 : JsString.startsWith (String "226" (String "128" (String "148" rest))) "—"
                 = true) by (destruct rest; reflexivity).
    cbn [JsString.split_go]. rewrite E1. cbn [JsString.split_go]. rewrite E2.
    change (String.length "—" - 1)%nat with 2%nat. cbn [JsString.split_go rev].
    rewrite string_of_list_snoc. reflexivity.
  - apply occurs_cons in H as [Hstart Hrest].
    assert (Hs : JsString.startsWith (String ch c +:+ " —" +:+ rest) "—" = false).
    { destruct (JsString.startsWith (String ch c +:+ " —" +:+ rest) "—") eqn:E; [|reflexivity].
      apply (startsWith_dash_space (String ch c)) in E. congruence. }
    rewrite !append_cons in *.
    cbn [JsString.split_go]. rewrite Hs, (IH _ Hrest). cbn [rev].
    rewrite string_of_list_app. reflexivity.
Qed.

Lemma split_quote c a :
  occurs c "—" = false -> occurs a "—" = false ->
  JsString.split (c +:+ " — " +:+ a) "—" = [c +:+ " "; String " " a].
Proof.
  intros Hc Ha. unfold JsString.split.
  change (" — " +:+ a) with (" —" +:+ String " " a).
  rewrite (split_go_dash [] c (String " " a) Hc), split_go_whole.
  - reflexivity.
  - cbn [occurs]. rewrite Ha. reflexivity.
Qed.

Lemma list_ascii_app s t :
  list_ascii_of_string (s +:+ t) = list_ascii_of_string s ++ list_ascii_of_string t.
Proof.
  induction s as [|c s IH]; [reflexivity|].
  rewrite append_cons. cbn. rewrite IH. reflexivity.
Qed.

Lemma trimEnd_space s : JsString.trimEnd (s +:+ " ") = JsString.trimEnd s.
Proof.
  unfold JsString.trimEnd. rewrite list_ascii_app, rev_app_distr. reflexivity.
Qed.

Lemma is_space2_space c : JsString.is_space2 c " " = false.
Proof. unfold JsString.is_space2. change (nat_of_ascii " ") with 32%nat. apply andb_false_r. Qed.

Lemma is_space3_space c d : JsString.is_space3 c d " " = false.
Proof.
  unfold JsString.is_space3. change (nat_of_ascii " ") with 32%nat.
  apply bool_decide_eq_false. rewrite !elem_of_cons, elem_of_nil.
  intros H. repeat destruct H as [H | H]; try discriminate H. exact H.
Qed.

Lemma trimStart_1 c :
  JsString.trimStart (String c "") = if JsString.is_space1 c then "" else String c "".
Proof. reflexivity. Qed.

Lemma trimStart_2 c d s :
  JsString.trimStart (String c (String d s))
  = if JsString.is_space1 c then JsString.trimStart (String d s)
    else if JsString.is_space2 c d then JsString.trimStart s
    else match s with
         | EmptyString => String c (String d s)
         | String e s3 =>
             if JsString.is_space3 c d e then JsString.trimStart s3
             else String c (String d s)
         end.
Proof. reflexivity. Qed.

(** A space appended to a string stays behind what [trimStart] keeps, or the
    string was blank. *)
Lemma trimStart_space s :
  JsString.trimStart (s +:+ " ") = JsString.trimStart s +:+ " "
  \/ (JsString.trimStart s = "" /\ JsString.trimStart (s +:+ " ") = "").
Proof.
  assert (H : forall n s, (String.length s <= n)%nat ->
            JsString.trimStart (s +:+ " ") = JsString.trimStart s +:+ " "
            \/ (JsString.trimStart s = "" /\ JsString.trimStart (s +:+ " ") = "")).
  { clear s. induction n as [|n IH]; intros s Hn.
    - destruct s; [right; split; reflexivity | cbn in Hn; lia].
    - destruct s as [|c1 [|c2 s2]]; [right; split; reflexivity | |].
      + change (String c1 "" +:+ " ") with (String c1 " ").
        rewrite trimStart_1, trimStart_2, is_space2_space.
        destruct (JsString.is_space1 c1); [right; split; reflexivity | left; reflexivity].
      + rewrite !append_cons, (trimStart_2 c1 c2 s2), (trimStart_2 c1 c2 (s2 +:+ " ")).
        destruct (JsString.is_space1 c1).
        { rewrite <- append_cons. apply IH. cbn in Hn |- *. lia. }
        destruct (JsString.is_space2 c1 c2).
        { apply IH. cbn in Hn. lia. }
        destruct s2 as [|c3 s3].
        * change ("" +:+ " ") with " ". cbv beta iota.
          rewrite is_space3_space. left. reflexivity.
        * rewrite append_cons. destruct (JsString.is_space3 c1 c2 c3).
          { apply IH. cbn in Hn. lia. }
          left. reflexivity. }
  apply (H (String.length s)). lia.
Qed.

Lemma trim_space_r s : JsString.trim (s +:+ " ") = JsString.trim s.
Proof.
  unfold JsString.trim.
  destruct (trimStart_space s) as [-> | [-> ->]]; [apply trimEnd_space | reflexivity].
Qed.

Lemma trim_space_l s : JsString.trim (String " " s) = JsString.trim s.
Proof. reflexivity. Qed.

(** X20. The quote survives the way through the string: [fetchQuote] joins
    content and author with a dash, [loadInitialData] splits at the dash, and
    when neither holds a dash the quote element shows the trimmed content and
    the trimmed author.  A blank content shows the whole string instead, a
    blank author shows Zen Master. *)
Theorem quote_shown_roundtrip (w : world) (r : response value) (fields : list (string * value))
    (content author : string) (old : option quote_markup) :
  quoteContent (els w) = Some old ->
  network (env w) (length (requests w)) QUOTE_API_URL = Responded r ->
  ok r = true -> json r = Some (VObj fields) ->
  assoc "content" fields = VStr content -> assoc "author" fields = VStr author ->
  occurs content "—" = false -> occurs author "—" = false ->
  quoteContent (els (loadInitialData_quote w).2)
  = Some (Some (mkQuoteMarkup
                  (or_else (JsString.trim content) (content +:+ " — " +:+ author))
                  (or_else (JsString.trim author) "Zen Master")
                  getDailyQuoteId (isFavorited (VStr getDailyQuoteId) w))).
Proof.
  intros Hmount Hnet Hok Hjson Hc Ha Hcd Had.
  assert (Hs : (fetchQuote w).1 = Ret (content +:+ " — " +:+ author)).
  { unfold fetchQuote. run. rewrite Hnet. cbn. rewrite Hok. cbn. rewrite Hjson. cbn.
    rewrite Hc, Ha. reflexivity. }
  rewrite (loadInitialData_quote_shows w _ Hs), Hmount.
  cbv zeta. rewrite (split_quote _ _ Hcd Had).
  cbn [List.map List.hd List.tl length JsString.join].
  rewrite trim_space_r, trim_space_l.
  rewrite bool_decide_eq_true_2 by lia.
  do 3 f_equal.
  destruct (JsString.trim content) as [|x t]; [|reflexivity].
  cbn [or_else]. destruct content; reflexivity.
Qed.

Lemma quote_shown_roundtrip_witness :
  quoteContent (els (loadInitialData_quote (fresh_world online_env)).2)
  = Some (Some (mkQuoteMarkup "Be kind" "Anon" "daily-quote-inspiration" false)).
Proof.
  apply (quote_shown_roundtrip (fresh_world online_env)
           (mkResponse true 200 "OK" None
              (Some (VObj [("content", VStr "Be kind "); ("author", VStr "Anon")])))
           [("content", VStr "Be kind "); ("author", VStr "Anon")]
           "Be kind " "Anon" None); reflexivity.
Defined.

Lemma fetchVideos_maps_items_witness :
  (fetchVideos (Some "yoga") (fresh_world online_env)).1
  = Ret [Video.mk (VStr "abc123") (VStr "Morning Stretch") (VStr "Fit Channel")].
Proof.
  refine (proj1 (fetchVideos_maps_items (Some "yoga") _
                   (mkResponse true 200 "OK" None (Some (VObj [("items", VArr [sample_item])])))
                   (VObj [("items", VArr [sample_item])]) [sample_item]
                   (fresh_world online_env) _ eq_refl eq_refl eq_refl eq_refl eq_refl)).
  split; discriminate.
Defined.

(** ** The video list after a failed search *)

Lemma fetchVideos_els query w :
  els (fetchVideos query w).2 = els w /\ favorites (fetchVideos query w).2 = favorites w.
Proof.
  assert (H : preserves (fun w => (els w, favorites w)) (fetchVideos query))
    by (unfold fetchVideos; frame_all).
  specialize (H w). injection H as ? ?. auto.
Qed.

(** X21. With a configured key, a search that ends in a network fault or in a
    status that is not ok leaves the video list of step 3 of [loadInitialData]
    with the placeholder for no videos: the three fallback videos of the
    [catch] are not shown. *)
Theorem failed_search_shows_placeholder (url : string) (old : option videos_markup)
    (w : world) :
  configured w ->
  apiUrl (YOUTUBE_API_KEY (env w))
    (if bool_decide (currentCategory w = "all") then "daily wellness" else currentCategory w)
  = Some url ->
  videoList (els w) = Some old ->
  network (env w) (length (requests w)) url = NetworkFault
  \/ (exists r, network (env w) (length (requests w)) url = Responded r /\ ok r = false) ->
  videoList (els (loadInitialData_videos w).2) = Some (Some NoVideosAvailable).
Proof.
  intros Hc Hurl Hmount Hfail.
  set (q := if bool_decide (currentCategory w = "all") then "daily wellness"
            else currentCategory w) in *.
  assert (Hempty : (fetchVideos (Some q) w).1 = Ret []).
  { unfold fetchVideos. run. rewrite (configured_guard w Hc).
    change (default "daily motivation" (Some q)) with q.
    rewrite Hurl. cbn.
    destruct Hfail as [-> | (r & -> & Hok)]; cbn; [reflexivity|].
    rewrite Hok. cbn. destruct (text r); reflexivity. }
  destruct (fetchVideos_els (Some q) w) as [He _].
  assert (Htry : loadInitialData_videos_try w = bind (fetchVideos (Some q)) renderVideos w)
    by reflexivity.
  unfold loadInitialData_videos.
  rewrite (try_catch_run _ _ w tt).
  - rewrite Htry, (bind_run _ _ _ _ Hempty). unfold renderVideos. run.
    rewrite He, Hmount. reflexivity.
  - rewrite Htry, (bind_run _ _ _ _ Hempty). apply total_unit, renderVideos_nil_total.
Qed.

Lemma failed_search_shows_placeholder_witness :
  videoList (els (loadInitialData_videos (fresh_world (offline_env "configured-key"))).2)
  = Some (Some NoVideosAvailable).
Proof.
  refine (failed_search_shows_placeholder _ None (fresh_world (offline_env "configured-key"))
            _ eq_refl eq_refl _).
  - split; discriminate.
  - left. reflexivity.
Defined.
